(** * npx: the resolution-and-execution engine of [index.js]

    A shallow embedding of [index.js]: JavaScript values that the code
    branches on, the promise chain as a state-and-rejection monad over the
    process-wide state, the collaborators that live outside the file
    ([which], [child], [fs], [rimraf], the module loader) as fields of a
    [World] record, and the functions of the file in source order. *)

From Stdlib Require Import ZArith String Ascii List Lia Bool.
From stdpp Require Import base strings gmap list pretty.

Local Open Scope string_scope.
Local Open Scope list_scope.
Local Open Scope Z_scope.

(** ** JavaScript values *)

(** The values the code tests with [!], [&&] and [||]. [VObj] stands for any
    object or function: always truthy, never a string. *)
Inductive jsval : Type :=
  | VUndef
  | VBool (b : bool)
  | VNum (n : Z)
  | VStr (s : string)
  | VObj.

Definition truthy (v : jsval) : bool :=
  match v with
  | VUndef => false
  | VBool b => b
  | VNum n => negb (n =? 0)
  | VStr s => negb (String.eqb s "")
  | VObj => true
  end.

(** [a || b] *)
Definition js_or (a b : jsval) : jsval := if truthy a then a else b.

(** Truthiness of an optional string field ([undefined] or a string). *)
Definition str_truthy (o : option string) : bool :=
  match o with
  | Some s => negb (String.eqb s "")
  | None => false
  end.

(** A template literal's rendering of a string-or-undefined value. *)
Definition tmpl (o : option string) : string :=
  match o with
  | Some s => s
  | None => "undefined"
  end.

(** JSON values, as [require] of a [.json] file and [JSON.parse] produce. *)
#[warnings="-register-all"]
Inductive json : Type :=
  | JNull
  | JBool (b : bool)
  | JNum (n : Z)
  | JStr (s : string)
  | JArr (items : list json)
  | JObj (fields : list (string * json)).

(** Own property of a parsed object: the last occurrence of a key wins. *)
Fixpoint json_field (k : string) (fields : list (string * json)) : option json :=
  match fields with
  | [] => None
  | (k', v) :: rest =>
      match json_field k rest with
      | Some v' => Some v'
      | None => if String.eqb k k' then Some v else None
      end
  end.

Definition json_truthy (j : json) : bool :=
  match j with
  | JNull => false
  | JBool b => b
  | JNum n => negb (n =? 0)
  | JStr s => negb (String.eqb s "")
  | JArr _ | JObj _ => true
  end.

(** ** Errors *)

(** An [Error] object with the properties the code reads or writes. *)
Record error : Type := mkError {
  message : string;
  code : option string;
  exitCode : option Z;
  isOperational : bool
}.

Definition new_Error (msg : string) : error :=
  {| message := msg; code := None; exitCode := None; isOperational := false |}.

Definition set_message (msg : string) (e : error) : error :=
  {| message := msg; code := code e; exitCode := exitCode e;
     isOperational := isOperational e |}.

Definition set_exitCode (c : Z) (e : error) : error :=
  {| message := message e; code := code e; exitCode := Some c;
     isOperational := isOperational e |}.

(** [err.exitCode] as a condition: a number other than zero. *)
Definition exitCode_truthy (e : error) : bool :=
  match exitCode e with
  | Some c => negb (c =? 0)
  | None => false
  end.

(** [err.exitCode || 1] *)
Definition exitCode_or_1 (e : error) : Z :=
  match exitCode e with
  | Some c => if c =? 0 then 1 else c
  | None => 1
  end.

Definition code_is (c : string) (e : error) : bool :=
  match code e with
  | Some c' => String.eqb c' c
  | None => false
  end.

(** The tag [Y()] of [y.js] renders a template in the caller's language.
    Modelled from the spec: [y.js] is not part of the core (message
    formatting is an external collaborator); under the default locale the
    rendered template is returned unchanged. *)
Definition Y (rendered : string) : string := rendered.

(** ** The [path] module (POSIX flavour) *)

Module Path.

Definition slash : ascii := "/"%char.
Definition dot : ascii := "."%char.

Fixpoint split_on (sep : ascii) (s : string) : list string :=
  match s with
  | EmptyString => [EmptyString]
  | String a rest =>
      if Ascii.eqb a sep then EmptyString :: split_on sep rest
      else match split_on sep rest with
           | h :: t => String a h :: t
           | [] => [String a EmptyString]
           end
  end.

Definition isAbsolute (p : string) : bool :=
  match p with
  | String a _ => Ascii.eqb a slash
  | EmptyString => false
  end.

Fixpoint ends_with_slash (p : string) : bool :=
  match p with
  | EmptyString => false
  | String a EmptyString => Ascii.eqb a slash
  | String _ rest => ends_with_slash rest
  end.

(** One step of [normalizeString]: the stack holds the kept segments,
    innermost first. *)
Definition norm_step (allowAbove : bool) (stack : list string) (seg : string)
  : list string :=
  if String.eqb seg "" || String.eqb seg "." then stack
  else if String.eqb seg ".." then
    match stack with
    | top :: below =>
        if String.eqb top ".." then (if allowAbove then seg :: stack else stack)
        else below
    | [] => if allowAbove then [seg] else []
    end
  else seg :: stack.

Definition normalizeString (p : string) (allowAbove : bool) : string :=
  String.concat "/" (rev (fold_left (norm_step allowAbove) (split_on slash p) [])).

Definition normalize (p : string) : string :=
  if String.eqb p "" then "."
  else
    let abs := isAbsolute p in
    let n := normalizeString p (negb abs) in
    let n := if String.eqb n "" && negb abs then "." else n in
    let n := if negb (String.eqb n "") && ends_with_slash p then n +:+ "/" else n in
    if abs then "/" +:+ n else n.

(** [path.join(...parts)] *)
Definition join (parts : list string) : string :=
  match filter (fun p => negb (String.eqb p "")) parts with
  | [] => "."
  | ps => normalize (String.concat "/" ps)
  end.

(** [path.resolve(...args)] with the working directory [cwd]: arguments
    are taken from the right until an absolute one is met. *)
Definition resolve (cwd : string) (args : list string) : string :=
  let step a acc :=
    if isAbsolute acc then acc
    else if String.eqb a "" then acc
    else a +:+ "/" +:+ acc in
  let full := fold_right step "" (cwd :: args) in
  let abs := isAbsolute full in
  let n := normalizeString full (negb abs) in
  if abs then "/" +:+ n
  else if String.eqb n "" then "." else n.

(** The last component of a path, trailing slashes dropped. *)
Definition last_component (p : string) : string :=
  match filter (fun s => negb (String.eqb s "")) (rev (split_on slash p)) with
  | b :: _ => b
  | [] => ""
  end.

(** [path.extname]: from the last dot of the last component, unless that
    dot opens the component or the component is [..]. *)
Definition extname (p : string) : string :=
  let b := last_component p in
  match rev (split_on dot b) with
  | [] | [_] => ""
  | ext :: before =>
      if String.eqb b ".." then ""
      else if forallb (fun s => String.eqb s "") before && (length before =? 1)%nat
      then ""
      else "." +:+ ext
  end.

End Path.

(** ** Text helpers *)

Definition LF : string := String "010"%char EmptyString.

Definition lower (a : ascii) : ascii :=
  let n := N_of_ascii a in
  if ((65 <=? n) && (n <=? 90))%N then ascii_of_N (n + 32) else a.

(** Equality of two characters under the [i] flag. *)
Definition eq_nocase (a b : ascii) : bool := Ascii.eqb (lower a) (lower b).

Definition is_space (a : ascii) : bool :=
  let n := N_of_ascii a in
  ((9 <=? n) && (n <=? 13) || (n =? 32))%N.

Fixpoint trim_start (s : string) : string :=
  match s with
  | String a rest => if is_space a then trim_start rest else s
  | EmptyString => s
  end.

(** [String.prototype.trim] on text of one-byte characters. *)
Definition trim (s : string) : string :=
  String.rev (trim_start (String.rev (trim_start s))).

(** ** The command pattern of the locator *)

Module CommandPattern.

(** Characters with a meaning of their own in a pattern source; the dot is
    treated apart. *)
Definition is_meta (a : ascii) : bool :=
  existsb (Ascii.eqb a) (list_ascii_of_string "\^$*+?()[]{}|").

Definition is_line_end (a : ascii) : bool :=
  let n := N_of_ascii a in ((n =? 10) || (n =? 13))%N.

(** One pattern character against one subject character. *)
Definition atom_matches (p a : ascii) : bool :=
  if Ascii.eqb p Path.dot then negb (is_line_end a) else eq_nocase p a.

(** Consumes the command's characters from the front of the subject and
    returns what is left of it. *)
Fixpoint strip_command (pat subject : string) : option string :=
  match pat, subject with
  | EmptyString, _ => Some subject
  | String p pat', String a subject' =>
      if atom_matches p a then strip_command pat' subject' else None
  | String _ _, EmptyString => None
  end.

Fixpoint string_eq_nocase (s t : string) : bool :=
  match s, t with
  | EmptyString, EmptyString => true
  | String a s', String b t' => eq_nocase a b && string_eq_nocase s' t'
  | _, _ => false
  end.

(** [new RegExp(`^${command}(?:\\.cmd)?$`, 'i')] applied to an entry, for a
    command whose characters are literal or dots, on ASCII text. *)
Definition simple_test (command entry : string) : bool :=
  match strip_command command entry with
  | Some rest => String.eqb rest "" || string_eq_nocase rest ".cmd"
  | None => false
  end.

Definition is_ascii (s : string) : bool :=
  forallb (fun a => (N_of_ascii a <? 128)%N) (list_ascii_of_string s).

Definition is_simple (command : string) : bool :=
  is_ascii command
  && forallb (fun a => negb (is_meta a)) (list_ascii_of_string command).

Definition source (command : string) : string :=
  "^" +:+ command +:+ "(?:\.cmd)?$".

End CommandPattern.

(** ** Arrays indexed by a property key *)

Module ArrayKey.

Definition digit (a : ascii) : option N :=
  let n := N_of_ascii a in
  if ((48 <=? n) && (n <=? 57))%N then Some (n - 48)%N else None.

Fixpoint digits (acc : N) (s : string) : option N :=
  match s with
  | EmptyString => Some acc
  | String a rest =>
      match digit a with
      | Some d => digits (acc * 10 + d) rest
      | None => None
      end
  end.

(** A key is an array index when it is the decimal spelling, without a
    leading zero, of an integer below 2^32 - 1. *)
Definition index (key : string) : option N :=
  match key with
  | EmptyString => None
  | String a rest =>
      if Ascii.eqb a "0"%char && negb (String.eqb rest "") then None
      else match digits 0 key with
           | Some n => if (n <? 4294967295)%N then Some n else None
           | None => None
           end
  end.

(** [arr[key]] for an array of strings; [inherited] tells which names the
    array gets from its prototype chain. *)
Definition get (inherited : string -> bool) (arr : list string) (key : string)
  : jsval :=
  match index key with
  | Some i =>
      if (i <? N.of_nat (length arr))%N then
        match nth_error arr (N.to_nat i) with
        | Some s => VStr s
        | None => VUndef
        end
      else VUndef
  | None =>
      if String.eqb key "length" then VNum (Z.of_nat (length arr))
      else if inherited key then VObj
      else VUndef
  end.

End ArrayKey.

(** ** Buffers and their text *)

#[global] Instance byte_eq_decision : EqDecision Byte.byte := Byte.byte_eq_dec.

Module Utf8.

Definition between (lo hi : N) (b : Byte.byte) : bool :=
  ((lo <=? Byte.to_N b) && (Byte.to_N b <=? hi))%N.

Definition low6 (b : Byte.byte) : N := (Byte.to_N b - 128)%N.

Definition replacement : N := 65533%N.

(** UTF-16 code units of a code point. *)
Definition units (cp : N) : list N :=
  if (cp <? 65536)%N then [cp]
  else [(55296 + (cp - 65536) / 1024)%N; (56320 + (cp - 65536) mod 1024)%N].

(** [buf.toString('utf8')] as code units: an ill-formed sequence gives one
    replacement character for its longest well-formed prefix. *)
Fixpoint decode (bs : list Byte.byte) : list N :=
  match bs with
  | [] => []
  | b :: rest =>
      let n := Byte.to_N b in
      if (n <? 128)%N then n :: decode rest
      else if ((194 <=? n) && (n <=? 223))%N then
        match rest with
        | c1 :: r1 =>
            if between 128 191 c1
            then ((n - 192) * 64 + low6 c1)%N :: decode r1
            else replacement :: decode rest
        | [] => [replacement]
        end
      else if ((224 <=? n) && (n <=? 239))%N then
        let lo := if (n =? 224)%N then 160%N else 128%N in
        let hi := if (n =? 237)%N then 159%N else 191%N in
        match rest with
        | c1 :: r1 =>
            if between lo hi c1 then
              match r1 with
              | c2 :: r2 =>
                  if between 128 191 c2
                  then ((n - 224) * 4096 + low6 c1 * 64 + low6 c2)%N :: decode r2
                  else replacement :: decode r1
              | [] => [replacement]
              end
            else replacement :: decode rest
        | [] => [replacement]
        end
      else if ((240 <=? n) && (n <=? 244))%N then
        let lo := if (n =? 240)%N then 144%N else 128%N in
        let hi := if (n =? 244)%N then 143%N else 191%N in
        match rest with
        | c1 :: r1 =>
            if between lo hi c1 then
              match r1 with
              | c2 :: r2 =>
                  if between 128 191 c2 then
                    match r2 with
                    | c3 :: r3 =>
                        if between 128 191 c3
                        then units ((n - 240) * 262144 + low6 c1 * 4096
                                    + low6 c2 * 64 + low6 c3)%N ++ decode r3
                        else replacement :: decode r2
                    | [] => [replacement]
                    end
                  else replacement :: decode r1
              | [] => [replacement]
              end
            else replacement :: decode rest
        | [] => [replacement]
        end
      else replacement :: decode rest
  end.

(** Code units of a string literal of one-byte characters. *)
Definition of_string (s : string) : list N :=
  map N_of_ascii (list_ascii_of_string s).

End Utf8.

(** ** The process and its collaborators *)

Inductive platform : Type := Win32 | PosixLike.

(** How a promise ends. [Pending] is a promise that never settles; the
    model also gives it when the fuel of a recursion runs out. *)
Inductive settled (A : Type) : Type :=
  | Resolved (a : A)
  | Rejected (e : error)
  | Pending.
Arguments Resolved {A} a.
Arguments Rejected {A} e.
Arguments Pending {A}.

Record PathOps : Type := {
  p_join : list string -> string;
  p_resolve : list string -> string;
  p_extname : string -> string
}.

Definition posix_path (cwd : string) : PathOps :=
  {| p_join := Path.join; p_resolve := Path.resolve cwd; p_extname := Path.extname |}.

(** What [fs.stat] finds at a path. *)
Inductive node : Type :=
  | RegFile (content : list Byte.byte)
  | Directory.

Definition isDirectory (n : node) : bool :=
  match n with Directory => true | RegFile _ => false end.

(** The parsed request, as [parse-args.js] hands it over. *)
Record Argv : Type := {
  shell_auto_fallback : option string;
  call : option string;
  command : option string;
  package : option (list string);
  q : bool;
  packageRequested : bool;
  npxPkg : option string;
  cache : option string;
  npm : string;
  userconfig : option string;
  isLocal : bool;
  cmdHadVersion : bool;
  ignoreExisting : bool;
  install : option bool;
  shell : option string;
  noYargs : bool;
  cmdOpts : list string
}.

(** The result of [ensurePackages]: the summary npm printed, augmented with
    [prefix] and [bin]. *)
Record InstallOutcome : Type := {
  summary : list (string * json);
  prefix : string;
  bin : string
}.

(** Calls worth observing from outside; the log keeps them in the order
    they were made. *)
Inductive event : Type :=
  | EvUpdateNotifier (pkg : string)
  | EvEnsurePackages (specs : option (list string))
  | EvRimraf (dir : string)
  | EvSpawnInstall (npmPath : string) (args : list jsval)
  | EvReaddir (dir : string)
  | EvFindNodeScript (existing : jsval)
  | EvYargsReset
  | EvRunMain (argv : list jsval)
  | EvRunCommand (existing : jsval).

(** Everything [index.js] requires or asks of the operating system. A field
    that returns [settled] is a promise-returning collaborator; its answer
    is a parameter of the model. *)
Record World : Type := {
  (* [process.platform], [process.cwd()], [process.pid.toString()] *)
  w_platform : platform;
  w_cwd : string;
  w_pid : string;
  (* the [path] module as it behaves on win32 *)
  w_win32_path : PathOps;
  (* whether [Module.runMain] is defined *)
  w_has_runMain : bool;
  (* [auto-fallback.js], the text of [parseArgs.showHelp()], [get-prefix.js] *)
  w_auto_fallback : string -> option string -> Argv -> option string;
  w_help : string;
  w_getPrefix : string -> settled string;
  (* [which], given the value of [process.env.PATH] at the call *)
  w_which : option string -> string -> settled string;
  (* when both lookups of [Promise.all] reject: did [getEnv] reject first *)
  w_env_settles_first : bool;
  (* [child.exec], [child.escapeArg(_, true)], [dotenv.parse], [rimraf] *)
  w_exec : string -> list string -> settled string;
  w_escapeArg : string -> string;
  w_dotenv_parse : string -> gmap string string;
  w_rimraf : string -> settled unit;
  (* [child.spawn] of the install, with the quiet flag of its [stdio];
     the answer is [deets.stdout] *)
  w_spawn : string -> list jsval -> bool -> settled (option string);
  (* [JSON.parse], [None] when it throws *)
  w_JSON_parse : string -> option json;
  (* the "npx: installed" line, which depends on the clock *)
  w_summary_line : json -> json -> string;
  (* [fs.readdir] *)
  w_readdir : string -> settled (list string);
  (* the property names every array inherits *)
  w_array_inherits : string -> bool;
  (* the [RegExp] engine under the [i] flag, for the pattern sources that
     [CommandPattern] does not write out *)
  w_regexp_test : string -> string -> bool;
  (* [new RegExp(source, 'i')] for those sources: the [SyntaxError] it
     throws when the source is not a pattern, [None] when it compiles *)
  w_regexp_error : string -> option error;
  (* the files and directories, by absolute path *)
  w_fs : gmap string node;
  (* what [fs.open], [fs.read] and [fs.close] report for a file that is
     there, by its path: the error of the call (a file the process may not
     read, a failing device), [None] when the call succeeds *)
  w_open_error : string -> option error;
  w_read_error : string -> option error;
  w_close_error : string -> option error;
  (* [require] of a manifest, [None] when it throws *)
  w_require : string -> option json;
  (* [Module.runMain()] under the given [process.argv], [child.runCommand] *)
  w_runMain : list jsval -> settled unit;
  w_runCommand : jsval -> Argv -> gmap string string -> settled unit
}.

(** The process-wide mutable state: [process.env], [process.argv],
    [process.exitCode], the lines written to the output and error streams,
    the directories registered for removal at exit, the open file
    descriptors with their paths, and the log of calls (a ghost field: the
    code does not read it). *)
Record State : Type := mkState {
  env : gmap string string;
  proc_argv : list jsval;
  proc_exitCode : option Z;
  out : list string;
  err : list string;
  exit_hooks : list string;
  fds : gmap nat string;
  calls : list event
}.

Definition with_env (e : gmap string string) (s : State) : State :=
  mkState e (proc_argv s) (proc_exitCode s) (out s) (err s) (exit_hooks s) (fds s) (calls s).
Definition with_argv (a : list jsval) (s : State) : State :=
  mkState (env s) a (proc_exitCode s) (out s) (err s) (exit_hooks s) (fds s) (calls s).
Definition with_exitCode (c : Z) (s : State) : State :=
  mkState (env s) (proc_argv s) (Some c) (out s) (err s) (exit_hooks s) (fds s) (calls s).
Definition with_out (line : string) (s : State) : State :=
  mkState (env s) (proc_argv s) (proc_exitCode s) (out s ++ [line]) (err s) (exit_hooks s) (fds s) (calls s).
Definition with_err (line : string) (s : State) : State :=
  mkState (env s) (proc_argv s) (proc_exitCode s) (out s) (err s ++ [line]) (exit_hooks s) (fds s) (calls s).
Definition with_exit_hook (dir : string) (s : State) : State :=
  mkState (env s) (proc_argv s) (proc_exitCode s) (out s) (err s) (exit_hooks s ++ [dir]) (fds s) (calls s).
Definition with_fds (f : gmap nat string) (s : State) : State :=
  mkState (env s) (proc_argv s) (proc_exitCode s) (out s) (err s) (exit_hooks s) f (calls s).
Definition with_call (ev : event) (s : State) : State :=
  mkState (env s) (proc_argv s) (proc_exitCode s) (out s) (err s) (exit_hooks s) (fds s) (calls s ++ [ev]).

(** ** Promise chains *)

Definition M (A : Type) : Type := State -> settled A * State.

Definition ret {A} (a : A) : M A := fun s => (Resolved a, s).
Definition throw {A} (e : error) : M A := fun s => (Rejected e, s).
Definition settle {A} (r : settled A) : M A := fun s => (r, s).

(** [m.then(f)] *)
Definition bind {A B} (m : M A) (f : A -> M B) : M B :=
  fun s =>
    match m s with
    | (Resolved a, s') => f a s'
    | (Rejected e, s') => (Rejected e, s')
    | (Pending, s') => (Pending, s')
    end.

(** [m.then(f, h)]: [h] sees a rejection of [m], not one of [f]. *)
Definition then2 {A B} (m : M A) (f : A -> M B) (h : error -> M B) : M B :=
  fun s =>
    match m s with
    | (Resolved a, s') => f a s'
    | (Rejected e, s') => h e s'
    | (Pending, s') => (Pending, s')
    end.

(** [m.catch(h)] *)
Definition catch {A} (m : M A) (h : error -> M A) : M A := then2 m ret h.

Definition gets {A} (f : State -> A) : M A := fun s => (Resolved (f s), s).
Definition modify (f : State -> State) : M unit := fun s => (Resolved tt, f s).

Notation "x <- m ;; k" := (bind m (fun x => k))
  (at level 100, m at next level, right associativity).
Notation "m ;;; k" := (bind m (fun _ => k))
  (at level 100, right associativity).

(** [Promise.all([a, b])]: both are started, [a] first; when both reject,
    [b_first] tells whose rejection came first. *)
Definition promise_all2 {A B} (b_first : bool) (a : M A) (b : M B) : M (A * B) :=
  fun s =>
    let (ra, s1) := a s in
    let (rb, s2) := b s1 in
    match ra, rb with
    | Resolved x, Resolved y => (Resolved (x, y), s2)
    | Rejected e, Rejected e' => (Rejected (if b_first then e' else e), s2)
    | Rejected e, _ => (Rejected e, s2)
    | _, Rejected e' => (Rejected e', s2)
    | _, _ => (Pending, s2)
    end.

Definition when (c : bool) (m : M unit) : M unit := if c then m else ret tt.

Definition console_log (line : string) : M unit := modify (with_out line).
Definition console_error (line : string) : M unit := modify (with_err line).
Definition set_process_exitCode (c : Z) : M unit := modify (with_exitCode c).
Definition log_call (ev : event) : M unit := modify (with_call ev).

(** [x === y] on the values met here; two objects are never the same one. *)
Definition strict_eq (x y : jsval) : bool :=
  match x, y with
  | VUndef, VUndef => true
  | VBool a, VBool b => Bool.eqb a b
  | VNum a, VNum b => (a =? b)
  | VStr a, VStr b => String.eqb a b
  | _, _ => false
  end.

(** ** The functions of [index.js] *)

Section Npx.

Variable w : World.

Definition path : PathOps :=
  match w_platform w with
  | PosixLike => posix_path (w_cwd w)
  | Win32 => w_win32_path w
  end.

Definition is_win32 : bool :=
  match w_platform w with Win32 => true | PosixLike => false end.

Definition PATH_SEP : string := if is_win32 then ";" else ":".

(** *** Collaborators as promises *)

Definition which (cmd : string) : M string :=
  fun s => (w_which w (env s !! "PATH") cmd, s).

Definition child_exec (prog : string) (args : list string) : M string :=
  settle (w_exec w prog args).

Definition rimraf (dir : string) : M unit :=
  log_call (EvRimraf dir) ;;; settle (w_rimraf w dir).

Definition child_spawn (prog : string) (args : list jsval) (quiet : bool)
  : M (option string) :=
  log_call (EvSpawnInstall prog args) ;;; settle (w_spawn w prog args quiet).

Definition fs_node (p : string) : option node :=
  w_fs w !! p_resolve path [p].

Definition fs_error (code what p : string) : error :=
  {| message := code +:+ ": " +:+ what +:+ " '" +:+ p +:+ "'";
     code := Some code; exitCode := None; isOperational := false |}.

Definition fs_stat (p : string) : M node :=
  match fs_node p with
  | Some n => ret n
  | None => throw (fs_error "ENOENT" "no such file or directory, stat" p)
  end.

(** [fs.open(p, 'r')]: a directory can be opened for reading; a call that
    fails opens nothing. *)
Definition fs_open (p : string) : M nat :=
  match fs_node p with
  | Some _ =>
      match w_open_error w p with
      | Some e => throw e
      | None =>
          fun s =>
            let fd := fresh (dom (fds s)) in
            (Resolved fd, with_fds (<[fd := p]> (fds s)) s)
      end
  | None => throw (fs_error "ENOENT" "no such file or directory, open" p)
  end.

(** [fs.read(fd, buf, 0, n, 0)]: the first [n] bytes of the file, as many
    as there are, overwrite the front of the buffer. *)
Definition fs_read (fd : nat) (buf : list Byte.byte) (n : nat) : M (list Byte.byte) :=
  fun s =>
    match fds s !! fd with
    | Some p =>
        match fs_node p with
        | Some (RegFile content) =>
            match w_read_error w p with
            | Some e => (Rejected e, s)
            | None =>
                let got := take n content in
                (Resolved (got ++ drop (length got) buf), s)
            end
        | Some Directory =>
            (Rejected {| message := "EISDIR: illegal operation on a directory, read";
                         code := Some "EISDIR"; exitCode := None;
                         isOperational := false |}, s)
        | None => (Rejected (fs_error "ENOENT" "no such file or directory, read" p), s)
        end
    | None =>
        (Rejected {| message := "EBADF: bad file descriptor, read";
                     code := Some "EBADF"; exitCode := None;
                     isOperational := false |}, s)
    end.

(** [fs.close(fd)]: the descriptor is released whatever the call
    reports. *)
Definition fs_close (fd : nat) : M unit :=
  fun s =>
    match fds s !! fd with
    | Some p =>
        (match w_close_error w p with
         | Some e => Rejected e
         | None => Resolved tt
         end,
         with_fds (delete fd (fds s)) s)
    | None =>
        (Rejected {| message := "EBADF: bad file descriptor, close";
                     code := Some "EBADF"; exitCode := None;
                     isOperational := false |}, s)
    end.

Definition fs_readdir (dir : string) : M (list string) :=
  log_call (EvReaddir dir) ;;; settle (w_readdir w dir).

Definition type_error (msg : string) : error := new_Error msg.

(** *** [localBinPath] *)

Definition localBinPath (cwd : string) : M string :=
  prefix <- settle (w_getPrefix w cwd) ;;
  ret (p_join path [prefix; "node_modules"; ".bin"]).

(** *** [getEnv] *)

Definition getEnv (opts : Argv) : M (gmap string string) :=
  text <- child_exec (npm opts) ["run"; "env"; "--parseable"] ;;
  ret (w_dotenv_parse w text).

(** *** [getExistingPath] *)

Definition getExistingPath (command : string) (opts : Argv) : M jsval :=
  if isLocal opts then ret (VStr command)
  else if cmdHadVersion opts || packageRequested opts || ignoreExisting opts
  then ret (VBool false)
  else
    catch (p <- which command ;; ret (VStr p))
      (fun err =>
         if code_is "ENOENT" err then
           match install opts with
           | Some false => throw (set_exitCode 127 err)
           | _ => ret VUndef
           end
         else throw err).

(** *** [getNpmCache] *)

Definition getNpmCache (opts : Argv) : M string :=
  cache <- (npmPath <- which (npm opts) ;;
            let args := ["config"; "get"; "cache"; "--parseable"] in
            let args :=
              match userconfig opts with
              | Some u => if str_truthy (Some u)
                          then args ++ ["--userconfig"; w_escapeArg w u]
                          else args
              | None => args
              end in
            child_exec npmPath args) ;;
  ret (trim cache).

(** *** [buildArgs] *)

Definition opt_args (flag : string) (o : option string) : list jsval :=
  match o with
  | Some v => if str_truthy o then [VStr flag; VStr v] else []
  | None => []
  end.

(** [['install'].concat(specs)] *)
Definition concat_specs (specs : option (list string)) : list jsval :=
  match specs with
  | Some l => map VStr l
  | None => [VUndef]
  end.

Definition buildArgs (specs : option (list string)) (prefix : string) (opts : Argv)
  : list jsval :=
  [VStr "install"] ++ concat_specs specs
    ++ [VStr "--global"; VStr "--prefix"; VStr prefix]
    ++ opt_args "--cache" (cache opts)
    ++ opt_args "--userconfig" (userconfig opts)
    ++ [VStr "--loglevel"; VStr "error"; VStr "--json"].

(** *** [installPackages] *)

(** [`${specs}`] *)
Definition specs_text (specs : option (list string)) : string :=
  match specs with
  | Some l => String.concat "," l
  | None => "undefined"
  end.

Definition install_failed_message (specs : option (list string)) (c : Z) : string :=
  Y ("Install for " +:+ specs_text specs +:+ " failed with code " +:+ pretty c).

(** [undefined] and [null] are both [None] here: the caller only tests
    the result for truthiness. *)
Definition installPackages (specs : option (list string)) (prefix : string)
    (opts : Argv) : M (option json) :=
  let args := buildArgs specs prefix opts in
  npmPath <- which (npm opts) ;;
  then2 (child_spawn npmPath args (q opts))
    (fun stdout =>
       match stdout with
       | Some text => if str_truthy stdout then ret (w_JSON_parse w text) else ret None
       | None => ret None
       end)
    (fun err =>
       match exitCode err with
       | Some c =>
           if exitCode_truthy err
           then throw (set_message (install_failed_message specs c) err)
           else throw err
       | None => throw err
       end).

(** *** [ensurePackages] *)

Definition install_bins (cache : string) : string * string :=
  let prefix := p_join path [cache; "_npx"; w_pid w] in
  let bins := if is_win32 then prefix else p_join path [prefix; "bin"] in
  (prefix, bins).

Definition prepend_PATH (dir : string) : M unit :=
  modify (fun s =>
    with_env (<["PATH" := dir +:+ PATH_SEP +:+ tmpl (env s !! "PATH")]> (env s)) s).

(** [opts.cache ? Promise.resolve(opts.cache) : getNpmCache(opts)] *)
Definition cacheDir (opts : Argv) : M string :=
  match cache opts with
  | Some c => if str_truthy (Some c) then ret c else getNpmCache opts
  | None => getNpmCache opts
  end.

Definition ensurePackages (specs : option (list string)) (opts : Argv)
  : M InstallOutcome :=
  log_call (EvEnsurePackages specs) ;;;
  cache <- cacheDir opts ;;
  let '(prefix, bins) := install_bins cache in
  modify (with_exit_hook prefix) ;;;
  rimraf bins ;;;
  info <- installPackages specs prefix opts ;;
  prepend_PATH bins ;;;
  match info with
  | Some (JObj fields) =>
      ret {| summary := fields; prefix := prefix; bin := bins |}
  | Some (JArr _) =>
      ret {| summary := []; prefix := prefix; bin := bins |}
  | Some j =>
      if json_truthy j
      then throw (type_error "Cannot create property 'prefix' on a primitive value")
      else ret {| summary := []; prefix := prefix; bin := bins |}
  | None => ret {| summary := []; prefix := prefix; bin := bins |}
  end.

(** *** [findNodeScript] *)

Definition shebang_line : string := "#!/usr/bin/env node" +:+ LF.

(** [pkg.bin || pkg.main || 'index.js']; [None] when reading a property
    of the manifest throws. *)
Definition entry_point (pkg : json) : option json :=
  match pkg with
  | JNull => None
  | JObj fields =>
      let or_else (o : option json) (d : json) :=
        match o with
        | Some j => if json_truthy j then j else d
        | None => d
        end in
      Some (or_else (json_field "bin" fields)
              (or_else (json_field "main" fields) (JStr "index.js")))
  | _ => Some (JStr "index.js")
  end.

(** The synchronous part of the [try] block: the manifest is required and
    the entry point resolved; [None] when either throws. *)
Definition manifest_target (existing : string) : option string :=
  match w_require w (p_resolve path [existing; "package.json"]) with
  | Some pkg =>
      match entry_point pkg with
      | Some (JStr entry) => Some (p_resolve path [existing; entry])
      | _ => None
      end
  | None => None
  end.

(** The shebang sniff of the last branch. *)
Definition sniff (existing : string) : M jsval :=
  let line := shebang_line in
  let bytecount := String.length line in
  let buf := repeat Byte.x00 bytecount in
  buf <- (fd <- fs_open existing ;;
          then2 (fs_read fd buf bytecount)
            (fun buf' => fs_close fd ;;; ret buf')
            (fun err => fs_close fd ;;; throw err)) ;;
  ret (if decide (Utf8.decode buf = Utf8.of_string line)
       then VStr existing else VBool false).

Fixpoint findNodeScript (fuel : nat) (existing : jsval) (opts : Argv) : M jsval :=
  match fuel with
  | O => settle Pending
  | S fuel' =>
      log_call (EvFindNodeScript existing) ;;;
      if negb (truthy existing) then ret (VBool false)
      else
        match existing with
        | VStr p =>
            stat <- fs_stat p ;;
            if isLocal opts && String.eqb (p_extname path p) ".js" then ret existing
            else if isLocal opts && isDirectory stat then
              match manifest_target p with
              | Some target =>
                  script <- findNodeScript fuel' (VStr target) opts ;;
                  if truthy script then ret script
                  else throw (new_Error (Y ("command not found: " +:+ target)))
              | None => throw (new_Error (Y ("command not found: " +:+ p)))
              end
            else if negb is_win32 then sniff p
            else ret VUndef
        | _ => throw (type_error "path must be a string")
        end
  end.

(** *** [execCommand] *)

Definition takes_over (existing : jsval) (argv : Argv) (s : State) : bool :=
  truthy existing && w_has_runMain w && negb (str_truthy (shell argv))
  && negb (strict_eq existing (nth 1 (proc_argv s) VUndef)).

Definition execCommand (fuel : nat) (_existing : jsval) (argv : Argv) : M unit :=
  existing <- findNodeScript fuel _existing argv ;;
  takeover <- gets (takes_over existing argv) ;;
  if takeover then
    when (negb (noYargs argv)) (log_call EvYargsReset) ;;;
    modify (fun s =>
      with_argv ([nth 0 (proc_argv s) VUndef; existing] ++ map VStr (cmdOpts argv)) s) ;;;
    args <- gets proc_argv ;;
    log_call (EvRunMain args) ;;;
    settle (w_runMain w args)
  else
    catch (log_call (EvRunCommand existing) ;;;
           e <- gets env ;;
           settle (w_runCommand w existing argv e))
      (fun err =>
         if isOperational err && exitCode_truthy err then
           set_process_exitCode (default 0 (exitCode err))
         else throw err).

(** *** [npx] *)

(** [b.match(cmd)] as a condition: written out for a command of literal
    characters and dots on ASCII text, left to the engine otherwise. *)
Definition command_test (command entry : string) : bool :=
  if CommandPattern.is_simple command && CommandPattern.is_ascii entry
  then CommandPattern.simple_test command entry
  else w_regexp_test w (CommandPattern.source command) entry.

(** [new RegExp(`^${argv.command}(?:\\.cmd)?$`, 'i')]: what it throws. A
    command of literal characters and dots always gives a pattern. *)
Definition command_error (command : string) : option error :=
  if CommandPattern.is_simple command then None
  else w_regexp_error w (CommandPattern.source command).

(** The handler of the listing, [bins => ...]. *)
Definition pick_bin (command results_bin : string) (bins : list string) : M jsval :=
  match command_error command with
  | Some e => throw e
  | None =>
      let matching := List.find (command_test command) bins in
      let key := tmpl matching in
      let chosen := js_or (ArrayKey.get (w_array_inherits w) bins key)
                          (match bins with b :: _ => VStr b | [] => VUndef end) in
      match chosen with
      | VStr name => ret (VStr (p_resolve path [results_bin; name]))
      | _ => throw (type_error "Path must be a string")
      end
  end.

Definition commandLocator (command : string) (results : InstallOutcome) : M jsval :=
  then2 (fs_readdir (bin results))
    (pick_bin command (bin results))
    (fun err =>
       if code_is "ENOENT" err
       then throw (new_Error (Y ("command not found: " +:+ command)))
       else throw err).

(** The condition of the install branch. *)
Definition must_install (existing : jsval) (argv : Argv) : bool :=
  (negb (truthy existing) && negb (str_truthy (call argv))) || packageRequested argv.

(** The body of [.then(args => ...)] after the environment is in place. *)
Definition installStage (existing : jsval) (argv : Argv) : M jsval :=
  if must_install existing argv then
    match npxPkg argv with
    | Some pkg => when (str_truthy (Some pkg)) (log_call (EvUpdateNotifier pkg))
    | None => ret tt
    end ;;;
    results <- ensurePackages (package argv) argv ;;
    match json_field "added" (summary results), json_field "updated" (summary results) with
    | Some added, Some updated =>
        when (json_truthy added && json_truthy updated && negb (q argv))
          (console_error (w_summary_line w added updated))
    | _, _ => ret tt
    end ;;;
    match command argv with
    | Some cmd =>
        if str_truthy (Some cmd) && negb (truthy existing) && negb (packageRequested argv)
        then
          match package argv with
          | Some specs =>
              if (length specs =? 1)%nat then commandLocator cmd results
              else ret existing
          | None => throw (type_error "Cannot read property 'length' of undefined")
          end
        else ret existing
    | None => ret existing
    end
  else ret existing.

(** [Promise.all([...])] of the two lookups. *)
Definition resolveStage (argv : Argv) : M (jsval * option (gmap string string)) :=
  promise_all2 (w_env_settles_first w)
    (match command argv with
     | Some cmd => if str_truthy (Some cmd) then getExistingPath cmd argv
                   else ret (VStr cmd)
     | None => ret VUndef
     end)
    (if str_truthy (call argv) then (e <- getEnv argv ;; ret (Some e)) else ret None).

(** The final [.catch(err => ...)]. *)
Definition on_failure (argv : Argv) (err : error) : M unit :=
  when (negb (q argv)) (console_error (message err)) ;;;
  set_process_exitCode (exitCode_or_1 err).

Definition must_supply_command : string :=
  Y (LF +:+ "ERROR: You must supply a command." +:+ LF).

(** The chain from [.then(args => ...)] to [execCommand]. *)
Definition afterResolve (fuel : nat) (argv : Argv)
    (args : jsval * option (gmap string string)) : M unit :=
  let existing := fst args in
  let newEnv := snd args in
  match newEnv with
  | Some e => modify (with_env e)
  | None => ret tt
  end ;;;
  existing <- installStage existing argv ;;
  execCommand fuel existing argv.

(** What runs once the project-local directory is on the search path. *)
Definition pipeline (fuel : nat) (argv : Argv) : M unit :=
  catch (args <- resolveStage argv ;; afterResolve fuel argv args)
    (on_failure argv).

Definition npx (fuel : nat) (argv : Argv) : M unit :=
  match shell_auto_fallback argv with
  | Some shell =>
      sh <- gets (fun s => env s !! "SHELL") ;;
      match w_auto_fallback w shell sh argv with
      | Some fallback =>
          if str_truthy (Some fallback) then console_log fallback
          else set_process_exitCode 1
      | None => set_process_exitCode 1
      end
  | None =>
      if negb (str_truthy (call argv))
         && (negb (str_truthy (command argv)) || negb (bool_decide (is_Some (package argv))))
      then
        when (negb (q argv)) (console_error must_supply_command) ;;;
        when (negb (q argv)) (console_error (w_help w)) ;;;
        set_process_exitCode 1
      else
        local <- localBinPath (w_cwd w) ;;
        when (str_truthy (Some local)) (prepend_PATH local) ;;;
        pipeline fuel argv
  end.

End Npx.

(** ** Vocabulary of the properties *)

(** Every run of [m] relates the state before to the state after by [R]. *)
Definition keeps (R : State -> State -> Prop) {A} (m : M A) : Prop :=
  forall s, R s (snd (m s)).

Definition same_env (s s' : State) : Prop := env s' = env s.

Definition is_entry (ev : event) : bool :=
  match ev with EvEnsurePackages _ => true | _ => false end.

Definition is_notifier (ev : event) : bool :=
  match ev with EvUpdateNotifier _ => true | _ => false end.

(** The log only grows, and by events that satisfy [P]. *)
Definition grows (P : event -> Prop) (s s' : State) : Prop :=
  exists post, calls s' = calls s ++ post /\ Forall P post.

Definition shebang_bytes : list Byte.byte := list_byte_of_string shebang_line.

(** A chain that reads the state through the environment only: from two
    states with the same environment it settles alike and leaves the same
    environment. *)
Definition env_only {A} (m : M A) : Prop :=
  forall s s', env s = env s' ->
    fst (m s) = fst (m s') /\ env (snd (m s)) = env (snd (m s')).

(** A file that the process can open, read and close. *)
Definition readable (w : World) (p : string) : Prop :=
  w_open_error w p = None /\ w_read_error w p = None /\ w_close_error w p = None.

(** What [fs.read] reports for a directory. *)
Definition read_error : error :=
  {| message := "EISDIR: illegal operation on a directory, read";
     code := Some "EISDIR"; exitCode := None; isOperational := false |}.

(** ** A sample machine *)

Module Sample.

Definition not_found (cmd : string) : error :=
  {| message := "not found: " +:+ cmd; code := Some "ENOENT";
     exitCode := None; isOperational := false |}.

Definition access_denied : error :=
  {| message := "EACCES: permission denied"; code := Some "EACCES";
     exitCode := None; isOperational := false |}.

Definition child_failed (c : Z) (operational : bool) : error :=
  {| message := "Command failed"; code := None;
     exitCode := Some c; isOperational := operational |}.

Definition files : gmap string node :=
  list_to_map
    [ ("/srv/tool", Directory);
      ("/srv/shared/run", RegFile (list_byte_of_string "echo hi"));
      ("/srv/broken", Directory);
      ("/srv/multi", Directory);
      ("/srv/app.js", RegFile (list_byte_of_string "console.log(1)"));
      ("/srv/script", RegFile (list_byte_of_string (shebang_line +:+ "main()")));
      ("/srv/short", RegFile (list_byte_of_string "#!/bin/sh"));
      ("/usr/bin/ls", RegFile (list_byte_of_string "ELF"));
      ("C:/tools/run.cmd", RegFile (list_byte_of_string (shebang_line +:+ "main()"))) ].

Definition manifests (p : string) : option json :=
  if String.eqb p "/srv/tool/package.json"
  then Some (JObj [("name", JStr "tool"); ("bin", JStr "../shared/run")])
  else if String.eqb p "/srv/multi/package.json"
  then Some (JObj [("name", JStr "multi"); ("bin", JObj [("a", JStr "a.js")])])
  else None.

(** [npm] and [ls] are on the search path, nothing else is. *)
Definition on_search_path (cmd : string) : settled string :=
  if String.eqb cmd "npm" then Resolved "/usr/bin/npm"
  else if String.eqb cmd "ls" then Resolved "/usr/bin/ls"
  else Rejected (not_found cmd).

(** A stand-in for the win32 flavour of [path], good for one absolute path
    at a time. *)
Definition flat_path : PathOps :=
  {| p_join := String.concat "/";
     p_resolve := fun args => List.last args "";
     p_extname := Path.extname |}.

Definition machine (plat : platform) (lookup : string -> settled string)
    (install_result : settled (option string)) (run_result : settled unit) : World :=
  {| w_platform := plat;
     w_cwd := "/home/u/proj";
     w_pid := "4242";
     w_win32_path := flat_path;
     w_has_runMain := true;
     w_auto_fallback := fun _ _ _ => None;
     w_help := "Usage: npx <command>";
     w_getPrefix := fun cwd => Resolved cwd;
     w_which := fun _ cmd => lookup cmd;
     w_env_settles_first := false;
     w_exec := fun _ _ => Resolved ("  /home/u/.npm" +:+ LF);
     w_escapeArg := fun a => a;
     w_dotenv_parse := fun _ => {[ "PATH" := "/npm/bin:/usr/bin" ]};
     w_rimraf := fun _ => Resolved tt;
     w_spawn := fun _ _ _ => install_result;
     w_JSON_parse := fun _ => Some (JObj []);
     w_summary_line := fun _ _ => "npx: installed";
     w_readdir := fun _ => Resolved ["bar"; "Foo.cmd"];
     w_array_inherits := fun k => String.eqb k "constructor";
     w_regexp_test := fun _ _ => false;
     w_regexp_error := fun _ => None;
     w_fs := files;
     w_open_error := fun _ => None;
     w_read_error := fun _ => None;
     w_close_error := fun _ => None;
     w_require := manifests;
     w_runMain := fun _ => Resolved tt;
     w_runCommand := fun _ _ _ => run_result |}.

(** A POSIX machine where every install ends with [install_result] and
    every spawned command with [run_result]. *)
Definition world (install_result : settled (option string))
    (run_result : settled unit) : World :=
  machine PosixLike on_search_path install_result run_result.

Definition quiet_world : World := world (Resolved None) (Resolved tt).

Definition win32_world : World :=
  machine Win32 on_search_path (Resolved None) (Resolved tt).

(** A machine whose search path cannot be read. *)
Definition locked_world : World :=
  machine PosixLike (fun _ => Rejected access_denied) (Resolved None) (Resolved tt).

Definition start : State :=
  {| env := {[ "PATH" := "/usr/bin" ]};
     proc_argv := [VStr "/usr/bin/node"; VStr "/usr/lib/npx/index.js"];
     proc_exitCode := None; out := []; err := [];
     exit_hooks := []; fds := ∅; calls := [] |}.

(** The state once the project-local directory is on the search path. *)
Definition started : State :=
  snd (prepend_PATH quiet_world "/home/u/proj/node_modules/.bin" start).

Definition request_with (cmd : string) (local : bool) (inst : option bool) : Argv :=
  {| shell_auto_fallback := None; call := None; command := Some cmd;
     package := Some [cmd]; q := false; packageRequested := false;
     npxPkg := None; cache := None; npm := "npm"; userconfig := None;
     isLocal := local; cmdHadVersion := false; ignoreExisting := false;
     install := inst; shell := None; noYargs := false; cmdOpts := [] |}.

(** [npx <cmd>] with nothing else on the command line. *)
Definition request (cmd : string) : Argv := request_with cmd false (Some true).

(** [npx <path>] for a local directory or file. *)
Definition local_request (target : string) : Argv :=
  request_with target true (Some true).

(** [npx --no-install <cmd>]. *)
Definition no_install_request (cmd : string) : Argv :=
  request_with cmd false (Some false).

(** [npx <cmd>@<version>]. *)
Definition pinned_request (cmd : string) : Argv :=
  {| shell_auto_fallback := None; call := None; command := Some cmd;
     package := Some [cmd]; q := false; packageRequested := false;
     npxPkg := None; cache := None; npm := "npm"; userconfig := None;
     isLocal := false; cmdHadVersion := true; ignoreExisting := false;
     install := Some true; shell := None; noYargs := false; cmdOpts := [] |}.

(** [npx -c <text>] without [-p]. *)
Definition call_request (text : string) : Argv :=
  {| shell_auto_fallback := None; call := Some text; command := None;
     package := Some []; q := false; packageRequested := false;
     npxPkg := None; cache := None; npm := "npm"; userconfig := None;
     isLocal := false; cmdHadVersion := false; ignoreExisting := false;
     install := Some true; shell := None; noYargs := false; cmdOpts := [] |}.

End Sample.

(** ** More vocabulary and more machines *)

Definition same_fds (s s' : State) : Prop := fds s' = fds s.

Definition same_hooks (s s' : State) : Prop := exit_hooks s' = exit_hooks s.

(** How often the installer was entered, by the log. *)
Definition entries (log : list event) : nat := length (List.filter is_entry log).

(** A parsed value that is truthy and neither an object nor an array. *)
Definition primitive_truthy (j : json) : bool :=
  match j with
  | JObj _ | JArr _ => false
  | _ => json_truthy j
  end.

Module Cases.

(** The sample files, a package whose manifest names a script, and a
    package whose manifest points back at its own directory. *)
Definition files : gmap string node :=
  <["/srv/pkg" := Directory]>
    (<["/srv/pkg/lib/cli.js" := RegFile (list_byte_of_string "run()")]>
       (<["/srv/loop" := Directory]> Sample.files)).

Definition manifests (p : string) : option json :=
  if String.eqb p "/srv/pkg/package.json"
  then Some (JObj [("name", JStr "pkg"); ("main", JStr "lib/cli.js")])
  else if String.eqb p "/srv/loop/package.json"
  then Some (JObj [("name", JStr "loop"); ("bin", JStr ".")])
  else Sample.manifests p.

(** A POSIX machine like the sample one, with the answers of the prefix
    lookup, the directory listing, the cleaning, the install and the parse
    of its output to choose. *)
Definition machine (prefix_result : settled string)
    (listing : settled (list string)) (cleaned : settled unit)
    (installed : settled (option string)) (parsed : option json) : World :=
  {| w_platform := PosixLike;
     w_cwd := "/home/u/proj";
     w_pid := "4242";
     w_win32_path := Sample.flat_path;
     w_has_runMain := true;
     w_auto_fallback := fun _ _ _ => None;
     w_help := "Usage: npx <command>";
     w_getPrefix := fun _ => prefix_result;
     w_which := fun _ cmd => Sample.on_search_path cmd;
     w_env_settles_first := false;
     w_exec := fun _ _ => Resolved ("  /home/u/.npm" +:+ LF);
     w_escapeArg := fun a => a;
     w_dotenv_parse := fun _ => {[ "PATH" := "/npm/bin:/usr/bin" ]};
     w_rimraf := fun _ => cleaned;
     w_spawn := fun _ _ _ => installed;
     w_JSON_parse := fun _ => parsed;
     w_summary_line := fun _ _ => "npx: installed";
     w_readdir := fun _ => listing;
     w_array_inherits := fun k => String.eqb k "constructor";
     w_regexp_test := fun _ _ => false;
     w_regexp_error := fun _ => None;
     w_fs := files;
     w_open_error := fun _ => None;
     w_read_error := fun _ => None;
     w_close_error := fun _ => None;
     w_require := manifests;
     w_runMain := fun _ => Resolved tt;
     w_runCommand := fun _ _ _ => Resolved tt |}.

Definition plain : World :=
  machine (Resolved "/home/u/proj") (Resolved ["bar"; "Foo.cmd"]) (Resolved tt)
    (Resolved None) None.

Definition no_such_directory : error :=
  {| message := "ENOENT: no such file or directory, scandir";
     code := Some "ENOENT"; exitCode := None; isOperational := false |}.

Definition outside_project : error :=
  {| message := "no prefix"; code := None; exitCode := None; isOperational := false |}.

Definition permission_denied (p : string) : error :=
  fs_error "EACCES" "permission denied, open" p.

(** The machine [w] where the file at [denied] is there and may not be
    opened for reading. *)
Definition refusing (denied : string) (w : World) : World :=
  {| w_platform := w_platform w;
     w_cwd := w_cwd w;
     w_pid := w_pid w;
     w_win32_path := w_win32_path w;
     w_has_runMain := w_has_runMain w;
     w_auto_fallback := w_auto_fallback w;
     w_help := w_help w;
     w_getPrefix := w_getPrefix w;
     w_which := w_which w;
     w_env_settles_first := w_env_settles_first w;
     w_exec := w_exec w;
     w_escapeArg := w_escapeArg w;
     w_dotenv_parse := w_dotenv_parse w;
     w_rimraf := w_rimraf w;
     w_spawn := w_spawn w;
     w_JSON_parse := w_JSON_parse w;
     w_summary_line := w_summary_line w;
     w_readdir := w_readdir w;
     w_array_inherits := w_array_inherits w;
     w_regexp_test := w_regexp_test w;
     w_regexp_error := w_regexp_error w;
     w_fs := w_fs w;
     w_open_error := fun p => if String.eqb p denied then Some (permission_denied p)
                              else w_open_error w p;
     w_read_error := w_read_error w;
     w_close_error := w_close_error w;
     w_require := w_require w;
     w_runMain := w_runMain w;
     w_runCommand := w_runCommand w |}.

(** [npx -p cowsay -c <text>]. *)
Definition call_with_package (text : string) : Argv :=
  {| shell_auto_fallback := None; call := Some text; command := None;
     package := Some ["cowsay"]; q := false; packageRequested := true;
     npxPkg := None; cache := None; npm := "npm"; userconfig := None;
     isLocal := false; cmdHadVersion := false; ignoreExisting := false;
     install := Some true; shell := None; noYargs := false; cmdOpts := [] |}.

End Cases.

(** The exit code is the one before, or a failure's. *)
Definition failure_code (s s' : State) : Prop :=
  proc_exitCode s' = proc_exitCode s
  \/ exists c, proc_exitCode s' = Some c /\ c <> 0.

(** The argument vector is the one before, or the interpreter, a loadable
    script and the command's own options. *)
Definition handed_over (opts : Argv) (s s' : State) : Prop :=
  proc_argv s' = proc_argv s
  \/ exists script,
       truthy script = true
       /\ proc_argv s'
          = [nth 0 (proc_argv s) VUndef; script] ++ map VStr (cmdOpts opts).

(** * Properties *)

(** ** Reasoning about promise chains *)

Lemma bind_resolved {A B} (m : M A) (f : A -> M B) s a s' :
  m s = (Resolved a, s') -> bind m f s = f a s'.
Proof. intros H. unfold bind. now rewrite H. Qed.

Lemma bind_rejected {A B} (m : M A) (f : A -> M B) s e s' :
  m s = (Rejected e, s') -> bind m f s = (Rejected e, s').
Proof. intros H. unfold bind. now rewrite H. Qed.

Lemma then2_resolved {A B} (m : M A) (f : A -> M B) h s a s' :
  m s = (Resolved a, s') -> then2 m f h s = f a s'.
Proof. intros H. unfold then2. now rewrite H. Qed.

Lemma then2_rejected {A B} (m : M A) (f : A -> M B) h s e s' :
  m s = (Rejected e, s') -> then2 m f h s = h e s'.
Proof. intros H. unfold then2. now rewrite H. Qed.

Lemma catch_resolved {A} (m : M A) h s a s' :
  m s = (Resolved a, s') -> catch m h s = (Resolved a, s').
Proof. intros H. unfold catch. now rewrite (then2_resolved _ _ _ _ _ _ H). Qed.

Lemma catch_rejected {A} (m : M A) h s e s' :
  m s = (Rejected e, s') -> catch m h s = h e s'.
Proof. intros H. unfold catch. now rewrite (then2_rejected _ _ _ _ _ _ H). Qed.

(** A relation between the state before and after that every step of a
    chain respects is respected by the chain. *)
Section Frame.

Variable R : State -> State -> Prop.
Hypothesis R_refl : forall s, R s s.
Hypothesis R_trans : forall a b c, R a b -> R b c -> R a c.

Lemma keeps_ret {A} (a : A) : keeps R (ret a).
Proof. intros s. apply R_refl. Qed.

Lemma keeps_throw {A} (e : error) : keeps R (@throw A e).
Proof. intros s. apply R_refl. Qed.

Lemma keeps_settle {A} (r : settled A) : keeps R (settle r).
Proof. intros s. apply R_refl. Qed.

Lemma keeps_gets {A} (f : State -> A) : keeps R (gets f).
Proof. intros s. apply R_refl. Qed.

Lemma keeps_then2 {A B} (m : M A) (f : A -> M B) (h : error -> M B) :
  keeps R m -> (forall a, keeps R (f a)) -> (forall e, keeps R (h e)) ->
  keeps R (then2 m f h).
Proof.
  intros Hm Hf Hh s. unfold then2. specialize (Hm s).
  destruct (m s) as [[a | e |] s1]; simpl in *.
  - apply R_trans with s1; [exact Hm | apply Hf].
  - apply R_trans with s1; [exact Hm | apply Hh].
  - exact Hm.
Qed.

Lemma keeps_bind {A B} (m : M A) (f : A -> M B) :
  keeps R m -> (forall a, keeps R (f a)) -> keeps R (bind m f).
Proof.
  intros Hm Hf s. unfold bind. specialize (Hm s).
  destruct (m s) as [[a | e |] s1]; simpl in *; try exact Hm.
  apply R_trans with s1; [exact Hm | apply Hf].
Qed.

Lemma keeps_catch {A} (m : M A) (h : error -> M A) :
  keeps R m -> (forall e, keeps R (h e)) -> keeps R (catch m h).
Proof. intros Hm Hh. apply keeps_then2; auto using @keeps_ret. Qed.

Lemma keeps_when (c : bool) (m : M unit) : keeps R m -> keeps R (when c m).
Proof. intros Hm. destruct c; simpl; [exact Hm | apply keeps_ret]. Qed.

Lemma keeps_modify (f : State -> State) :
  (forall s, R s (f s)) -> keeps R (modify f).
Proof. intros Hf s. apply Hf. Qed.

Lemma keeps_all2 {A B} (b : bool) (m : M A) (n : M B) :
  keeps R m -> keeps R n -> keeps R (promise_all2 b m n).
Proof.
  intros Hm Hn s. unfold promise_all2. specialize (Hm s).
  destruct (m s) as [ra s1]. specialize (Hn s1).
  destruct (n s1) as [rb s2]. simpl in *.
  assert (R s s2) by (eapply R_trans; eauto).
  destruct ra, rb; simpl; assumption.
Qed.

End Frame.

(** Breaks a chain into its steps; [prim] settles the steps that touch the
    state. *)
Ltac chain prim :=
  repeat first
    [ assumption
    | solve [auto 2]
    | progress intros
    | apply keeps_bind
    | apply keeps_then2
    | apply keeps_catch
    | apply keeps_all2
    | apply keeps_when
    | apply keeps_ret
    | apply keeps_throw
    | apply keeps_settle
    | apply keeps_gets
    | solve [prim]
    | match goal with
      | |- keeps _ (if ?c then _ else _) => destruct c
      | |- keeps _ (match ?x with _ => _ end) => destruct x
      | |- keeps _ (let '(_, _) := ?x in _) => destruct x
      end ].

Lemma bind_inv {A B} (m : M A) (f : A -> M B) s b s' :
  bind m f s = (Resolved b, s') ->
  exists a s1, m s = (Resolved a, s1) /\ f a s1 = (Resolved b, s').
Proof.
  unfold bind. destruct (m s) as [[a | e |] s1]; intros H; try discriminate.
  eauto.
Qed.

(** ** What leaves the environment alone *)

Lemma same_env_refl s : same_env s s.
Proof. reflexivity. Qed.

Lemma same_env_trans a b c : same_env a b -> same_env b c -> same_env a c.
Proof. unfold same_env. congruence. Qed.

Section EnvUntouched.

Variable w : World.

Ltac env_chain :=
  pose proof same_env_refl; pose proof same_env_trans;
  chain ltac:(apply keeps_modify; intros; reflexivity).

Lemma log_call_env ev : keeps same_env (log_call ev).
Proof. env_chain. Qed.

Lemma which_env cmd : keeps same_env (which w cmd).
Proof. intros s. reflexivity. Qed.

Lemma child_exec_env prog args : keeps same_env (child_exec w prog args).
Proof. unfold child_exec. env_chain. Qed.

Lemma rimraf_env dir : keeps same_env (rimraf w dir).
Proof. unfold rimraf. pose proof log_call_env. env_chain. Qed.

Lemma child_spawn_env prog args b : keeps same_env (child_spawn w prog args b).
Proof. unfold child_spawn. pose proof log_call_env. env_chain. Qed.

Lemma getNpmCache_env opts : keeps same_env (getNpmCache w opts).
Proof.
  unfold getNpmCache. pose proof which_env. pose proof child_exec_env.
  env_chain.
Qed.

Lemma cacheDir_env opts : keeps same_env (cacheDir w opts).
Proof. unfold cacheDir. pose proof getNpmCache_env. env_chain. Qed.

Lemma installPackages_env specs prefix opts :
  keeps same_env (installPackages w specs prefix opts).
Proof.
  unfold installPackages. pose proof which_env. pose proof child_spawn_env.
  env_chain.
Qed.

Lemma getExistingPath_env cmd opts : keeps same_env (getExistingPath w cmd opts).
Proof. unfold getExistingPath. pose proof which_env. env_chain. Qed.

Lemma getEnv_env opts : keeps same_env (getEnv w opts).
Proof. unfold getEnv. pose proof child_exec_env. env_chain. Qed.

Lemma resolveStage_env argv : keeps same_env (resolveStage w argv).
Proof.
  unfold resolveStage. pose proof getExistingPath_env. pose proof getEnv_env.
  env_chain.
Qed.

End EnvUntouched.

(** ** What the call log can show *)

Lemma grows_refl P s : grows P s s.
Proof. exists []. split; [now rewrite app_nil_r | constructor]. Qed.

Lemma grows_trans P a b c : grows P a b -> grows P b c -> grows P a c.
Proof.
  intros (p1 & E1 & F1) (p2 & E2 & F2). exists (p1 ++ p2). split.
  - rewrite E2, E1. now rewrite <- app_assoc.
  - apply Forall_app. split; assumption.
Qed.

Lemma grows_same P s s' : calls s' = calls s -> grows P s s'.
Proof. intros E. exists []. split; [now rewrite app_nil_r | constructor]. Qed.

Lemma grows_one P ev s : P ev -> grows P s (with_call ev s).
Proof. intros H. exists [ev]. split; [reflexivity | now repeat constructor]. Qed.

(** Whatever follows [m] in a chain only adds to what [m] logged. *)
Lemma after_bind {A B} P (m : M A) (f : A -> M B) s :
  (forall a, keeps (grows P) (f a)) ->
  grows P (snd (m s)) (snd (bind m f s)).
Proof.
  intros Hf. unfold bind. destruct (m s) as [[a | e |] s1]; simpl;
    try apply grows_refl.
  apply Hf.
Qed.

Section CallLog.

Variable w : World.
Variable P : event -> Prop.
Hypothesis HP : forall ev, is_entry ev = false -> P ev.

#[local] Set Default Proof Using "w P HP".

Ltac log_chain :=
  pose proof (grows_refl P); pose proof (grows_trans P);
  chain ltac:(first
    [ apply keeps_modify; intros; apply grows_same; reflexivity
    | apply keeps_modify; intros; apply grows_one; apply HP; reflexivity ]).

Lemma log_call_grows ev : is_entry ev = false -> keeps (grows P) (log_call ev).
Proof. intros H s. apply grows_one, HP, H. Qed.

Lemma which_grows cmd : keeps (grows P) (which w cmd).
Proof. intros s. apply grows_refl. Qed.

Lemma child_exec_grows prog args : keeps (grows P) (child_exec w prog args).
Proof. unfold child_exec. log_chain. Qed.

Lemma rimraf_grows dir : keeps (grows P) (rimraf w dir).
Proof. unfold rimraf, log_call. log_chain. Qed.

Lemma child_spawn_grows prog args b : keeps (grows P) (child_spawn w prog args b).
Proof. unfold child_spawn, log_call. log_chain. Qed.

Lemma fs_stat_grows p : keeps (grows P) (fs_stat w p).
Proof. unfold fs_stat. log_chain. Qed.

Lemma fs_open_grows p : keeps (grows P) (fs_open w p).
Proof.
  unfold fs_open. destruct (fs_node w p); [| apply keeps_throw, grows_refl].
  destruct (w_open_error w p); [apply keeps_throw, grows_refl |].
  intros s. apply grows_same. reflexivity.
Qed.

Lemma fs_read_grows fd buf n : keeps (grows P) (fs_read w fd buf n).
Proof.
  intros s. unfold fs_read. destruct (fds s !! fd) as [p |]; [| apply grows_refl].
  destruct (fs_node w p) as [[c |] |]; try apply grows_refl.
  destruct (w_read_error w p); apply grows_refl.
Qed.

Lemma fs_close_grows fd : keeps (grows P) (fs_close w fd).
Proof.
  intros s. unfold fs_close. destruct (fds s !! fd); [| apply grows_refl].
  apply grows_same. reflexivity.
Qed.

Lemma fs_readdir_grows dir : keeps (grows P) (fs_readdir w dir).
Proof. unfold fs_readdir, log_call. log_chain. Qed.

Lemma getNpmCache_grows opts : keeps (grows P) (getNpmCache w opts).
Proof.
  unfold getNpmCache. pose proof which_grows. pose proof child_exec_grows.
  log_chain.
Qed.

Lemma cacheDir_grows opts : keeps (grows P) (cacheDir w opts).
Proof. unfold cacheDir. pose proof getNpmCache_grows. log_chain. Qed.

Lemma installPackages_grows specs prefix opts :
  keeps (grows P) (installPackages w specs prefix opts).
Proof.
  unfold installPackages. pose proof which_grows. pose proof child_spawn_grows.
  log_chain.
Qed.

Lemma sniff_grows p : keeps (grows P) (sniff w p).
Proof.
  unfold sniff. pose proof fs_open_grows. pose proof fs_read_grows.
  pose proof fs_close_grows. log_chain.
Qed.

Lemma findNodeScript_grows fuel :
  forall existing opts, keeps (grows P) (findNodeScript w fuel existing opts).
Proof.
  induction fuel as [| fuel IH]; intros existing opts; simpl.
  - apply keeps_settle, grows_refl.
  - pose proof fs_stat_grows. pose proof sniff_grows. unfold log_call.
    log_chain.
Qed.

Lemma execCommand_grows fuel existing argv :
  keeps (grows P) (execCommand w fuel existing argv).
Proof.
  unfold execCommand, log_call, set_process_exitCode.
  pose proof (findNodeScript_grows fuel). log_chain.
Qed.

Lemma commandLocator_grows cmd results :
  keeps (grows P) (commandLocator w cmd results).
Proof.
  unfold commandLocator, pick_bin. pose proof fs_readdir_grows. log_chain.
Qed.

End CallLog.

(** ** The install decision *)

Lemma bind_assoc {A B C} (m : M A) (f : A -> M B) (g : B -> M C) s :
  bind (bind m f) g s = bind m (fun a => bind (f a) g) s.
Proof. unfold bind. destruct (m s) as [[a | e |] s1]; reflexivity. Qed.

(** A chain that starts by logging [ev] shows [ev] first. *)
Lemma log_first {B} ev (k : unit -> M B) s :
  (forall u, keeps (grows (fun _ => True)) (k u)) ->
  exists post, calls (snd (bind (log_call ev) k s)) = calls s ++ ev :: post.
Proof.
  intros Hk. destruct (Hk tt (with_call ev s)) as (post & E & _).
  exists post. unfold bind, log_call, modify. rewrite E. simpl.
  now rewrite <- app_assoc.
Qed.

(** Solves "the log only grows" for the chains of the install stage. *)
Ltac any_growth w :=
  pose proof (grows_refl (fun _ => True));
  pose proof (grows_trans (fun _ => True));
  pose proof (cacheDir_grows w (fun _ => True) (fun _ _ => I));
  pose proof (rimraf_grows w (fun _ => True) (fun _ _ => I));
  pose proof (installPackages_grows w (fun _ => True) (fun _ _ => I));
  pose proof (commandLocator_grows w (fun _ => True) (fun _ _ => I));
  pose proof (execCommand_grows w (fun _ => True) (fun _ _ => I));
  unfold prepend_PATH, console_error;
  chain ltac:(apply keeps_modify; intros; apply grows_same; reflexivity).

(** The installer logs its entry before anything else it does. *)
Lemma ensurePackages_entry {B} w specs opts (k : InstallOutcome -> M B) s :
  (forall r, keeps (grows (fun _ => True)) (k r)) ->
  exists post,
    calls (snd (bind (ensurePackages w specs opts) k s))
    = calls s ++ EvEnsurePackages specs :: post.
Proof.
  intros Hk. unfold ensurePackages. rewrite bind_assoc.
  apply log_first. intros _. any_growth w.
Qed.

(** C3 (amended). At the install decision, for every value [existing] of the
    lookup and every state: when a path was found or a call string is given,
    and the package was not explicitly requested, the installer is not
    entered by the rest of the run; in every other case (nothing found and
    no call string, or the package explicitly requested) the installer is
    entered, and nothing but the update notifier comes before it, so it
    precedes classification and execution. *)
Theorem install_decision w fuel argv existing s :
  let rest := existing' <- installStage w existing argv ;;
              execCommand w fuel existing' argv in
  ((truthy existing || str_truthy (call argv)) && negb (packageRequested argv) = true ->
   exists post,
     calls (snd (rest s)) = calls s ++ post
     /\ Forall (fun ev => is_entry ev = false) post)
  /\ ((negb (truthy existing) && negb (str_truthy (call argv)))
      || packageRequested argv = true ->
      exists pre post,
        calls (snd (rest s)) = calls s ++ pre ++ EvEnsurePackages (package argv) :: post
        /\ Forall (fun ev => is_notifier ev = true) pre).
Proof.
  cbv zeta. split.
  - intros Hskip.
    assert (must_install existing argv = false) as Hno.
    { unfold must_install.
      destruct (truthy existing), (str_truthy (call argv)), (packageRequested argv);
        simpl in *; congruence. }
    unfold installStage. rewrite Hno.
    apply (execCommand_grows w (fun ev => is_entry ev = false)). auto.
  - intros Hmust. unfold installStage. fold (must_install existing argv) in Hmust.
    rewrite Hmust.
    set (notify := match npxPkg argv with
                   | Some pkg => when (str_truthy (Some pkg)) (log_call (EvUpdateNotifier pkg))
                   | None => ret tt
                   end).
    assert (exists pre, notify s = (Resolved tt, snd (notify s))
                        /\ calls (snd (notify s)) = calls s ++ pre
                        /\ Forall (fun ev => is_notifier ev = true) pre)
      as (pre & Hn & Epre & Fpre).
    { subst notify. destruct (npxPkg argv) as [pkg |].
      - destruct (str_truthy (Some pkg)); simpl.
        + exists [EvUpdateNotifier pkg]. repeat split. now repeat constructor.
        + exists []. repeat split; [now rewrite app_nil_r | constructor].
      - exists []. repeat split; [now rewrite app_nil_r | constructor]. }
    rewrite bind_assoc, (bind_resolved _ _ _ _ _ Hn), bind_assoc.
    match goal with
    | |- context [bind (ensurePackages w ?sp ?o) ?k ?s1] =>
        destruct (ensurePackages_entry w sp o k s1) as (post & Epost)
    end.
    + intros r. any_growth w.
    + exists pre, post. split; [| exact Fpre].
      rewrite Epost, Epre. now rewrite <- app_assoc.
Qed.

(** ** Buffers that read as ASCII text *)

(** A byte outside ASCII never decodes to an ASCII code unit. *)
Lemma decode_high_head b rest :
  (128 <= Byte.to_N b)%N ->
  exists u us, Utf8.decode (b :: rest) = u :: us /\ (128 <= u)%N.
Proof.
  intros Hb. simpl.
  destruct (Byte.to_N b <? 128)%N eqn:E; [apply N.ltb_lt in E; lia |].
  unfold Utf8.between, Utf8.low6, Utf8.units, Utf8.replacement.
  repeat match goal with
    | |- context [match ?l with [] => _ | _ :: _ => _ end] => destruct l
    | |- context [if ?c then _ else _] => destruct c eqn:?
    end;
    simpl; eexists; eexists; (split; [reflexivity |]);
    repeat match goal with
      | H : (_ && _)%bool = true |- _ => apply andb_prop in H; destruct H
      | H : (_ <=? _)%N = true |- _ => apply N.leb_le in H
      | H : (_ <? _)%N = true |- _ => apply N.ltb_lt in H
      | H : (_ <? _)%N = false |- _ => apply N.ltb_ge in H
      | H : (_ =? _)%N = true |- _ => apply N.eqb_eq in H
      | H : (_ =? _)%N = false |- _ => apply N.eqb_neq in H
      | H : context [if ?c then _ else _] |- _ => destruct c eqn:?
      end;
    try lia;
    try (apply N.le_trans with 55296%N; [lia | apply N.le_add_r]).
Qed.

(** If a buffer reads as ASCII text, its bytes are that text. *)
Lemma decode_ascii bs : forall l,
  Forall (fun u => (u < 128)%N) l ->
  Utf8.decode bs = l -> map Byte.to_N bs = l.
Proof.
  induction bs as [| b rest IH]; intros l Hl Hd.
  - simpl in Hd. now subst.
  - destruct (N.lt_ge_cases (Byte.to_N b) 128) as [Hlo | Hhi].
    + simpl in Hd. apply N.ltb_lt in Hlo. rewrite Hlo in Hd.
      destruct l as [| u l']; [discriminate |].
      injection Hd as Hu Hrest. subst u. simpl. f_equal.
      apply IH; [now inversion Hl | assumption].
    + destruct (decode_high_head b rest Hhi) as (u & us & E & Hu).
      rewrite E in Hd. subst l. inversion Hl; subst. lia.
Qed.

Lemma map_to_N_inj (xs ys : list Byte.byte) :
  map Byte.to_N xs = map Byte.to_N ys -> xs = ys.
Proof.
  revert ys. induction xs as [| x xs IH]; intros [| y ys] H; try discriminate.
  - reflexivity.
  - simpl in H. injection H as Hx Hxs. f_equal; [| auto].
    pose proof (Byte.of_to_N x) as Ex. pose proof (Byte.of_to_N y) as Ey.
    rewrite Hx in Ex. congruence.
Qed.

(** The comparison [buf.toString('utf8') === line] is a comparison of bytes. *)
Lemma buffer_reads_shebang buf :
  Utf8.decode buf = Utf8.of_string shebang_line <-> buf = shebang_bytes.
Proof.
  split.
  - intros H. apply decode_ascii in H.
    + apply map_to_N_inj. rewrite H. vm_compute. reflexivity.
    + vm_compute. repeat constructor.
  - intros ->. vm_compute. reflexivity.
Qed.

(** What the read leaves in a zeroed buffer of the line's length equals the
    line exactly when the file starts with the line. *)
Lemma padded_is_shebang (content : list Byte.byte) :
  let got := take 20 content in
  got ++ drop (length got) (repeat Byte.x00 20) = shebang_bytes
  <-> take 20 content = shebang_bytes.
Proof.
  cbv zeta. split.
  - intros H.
    destruct (Nat.le_gt_cases 20 (length content)) as [Hlong | Hshort].
    + rewrite length_take, Nat.min_l in H by assumption.
      simpl in H. now rewrite app_nil_r in H.
    + exfalso. rewrite take_ge in H by lia.
      assert (last (content ++ drop (length content) (repeat Byte.x00 20)) = Some Byte.x00)
        as Hlast.
      { rewrite last_app.
        replace (drop (length content) (repeat Byte.x00 20))
          with (repeat Byte.x00 (20 - length content)).
        - destruct (20 - length content)%nat as [| k] eqn:Ek; [lia |].
          replace (repeat Byte.x00 (S k)) with (repeat Byte.x00 k ++ [Byte.x00])
            by (symmetry; apply (repeat_cons k Byte.x00)).
          now rewrite last_snoc.
        - clear. generalize (length content) as n. intros n.
          do 21 (destruct n as [| n]; [reflexivity |]). reflexivity. }
      rewrite H in Hlast. vm_compute in Hlast. discriminate.
  - intros H. rewrite H. vm_compute. reflexivity.
Qed.

(** ** The classifier *)

Lemma with_fds_same s : with_fds (fds s) s = s.
Proof. now destruct s. Qed.

Lemma with_fds_twice f g s : with_fds f (with_fds g s) = with_fds f s.
Proof. reflexivity. Qed.

(** The sniff, whatever the path holds: a failed open is the outcome and
    opens nothing; after the read the handle is closed again, a failed
    close is the outcome, else a failed read, else the answer, which
    depends on the first twenty bytes only. The state is left as it was
    found. *)
Lemma sniff_outcome w p s :
  sniff w p s
  = (match fs_node w p with
     | Some n =>
         match w_open_error w p with
         | Some e => Rejected e
         | None =>
             match w_close_error w p with
             | Some e => Rejected e
             | None =>
                 match n with
                 | RegFile content =>
                     match w_read_error w p with
                     | Some e => Rejected e
                     | None =>
                         Resolved (if decide (take 20 content = shebang_bytes)
                                   then VStr p else VBool false)
                     end
                 | Directory => Rejected read_error
                 end
             end
         end
     | None => Rejected (fs_error "ENOENT" "no such file or directory, open" p)
     end, s).
Proof.
  unfold sniff. change (String.length shebang_line) with 20%nat.
  unfold bind at 1. unfold bind at 1. unfold fs_open.
  destruct (fs_node w p) as [n |] eqn:Hnode; [| reflexivity].
  destruct (w_open_error w p) as [e |]; [reflexivity |].
  set (fd := fresh (dom (fds s))).
  assert (delete fd (<[fd := p]> (fds s)) = fds s) as Hdel
    by (apply delete_insert_id, not_elem_of_dom, is_fresh).
  unfold then2, fs_read. cbn [fds with_fds]. rewrite lookup_insert_eq, Hnode.
  destruct n as [content |].
  - destruct (w_read_error w p) as [e |].
    + unfold bind, fs_close, throw. cbn [fds with_fds].
      rewrite lookup_insert_eq, Hdel, with_fds_twice, with_fds_same.
      now destruct (w_close_error w p).
    + unfold bind, fs_close, ret. cbn [fds with_fds].
      rewrite lookup_insert_eq, Hdel, with_fds_twice, with_fds_same.
      destruct (w_close_error w p); [reflexivity |]. f_equal. f_equal.
      destruct (decide (take 20 content = shebang_bytes)) as [Heq | Hne];
        destruct (decide _) as [Hd | Hd]; try reflexivity; exfalso.
      * apply Hd, buffer_reads_shebang, padded_is_shebang, Heq.
      * apply Hne, padded_is_shebang, buffer_reads_shebang, Hd.
  - unfold bind, fs_close, throw. cbn [fds with_fds].
    rewrite lookup_insert_eq, Hdel, with_fds_twice, with_fds_same.
    now destruct (w_close_error w p).
Qed.

(** Sniffing a regular file that can be read: the handle is opened, read
    and closed again, and the answer depends on the first twenty bytes
    only. *)
Lemma sniff_regular w p content s :
  fs_node w p = Some (RegFile content) ->
  readable w p ->
  sniff w p s
  = (Resolved (if decide (take 20 content = shebang_bytes)
               then VStr p else VBool false), s).
Proof.
  intros Hnode (Hopen & Hread & Hclose).
  now rewrite sniff_outcome, Hnode, Hopen, Hclose, Hread.
Qed.

Lemma truthy_VStr p : p <> "" -> truthy (VStr p) = true.
Proof.
  intros Hp. simpl. destruct (String.eqb_spec p ""); [contradiction | reflexivity].
Qed.

(** Every branch of the classifier for a path that is a regular file. *)
Lemma findNodeScript_file w opts fuel p content s :
  p <> "" ->
  fs_node w p = Some (RegFile content) ->
  findNodeScript w (S fuel) (VStr p) opts s
  = (if isLocal opts && String.eqb (p_extname (path w) p) ".js"
     then Resolved (VStr p)
     else if is_win32 w then Resolved VUndef
     else fst (sniff w p s),
     with_call (EvFindNodeScript (VStr p)) s).
Proof.
  intros Hp Hnode. cbn [findNodeScript].
  unfold bind at 1. unfold log_call at 1, modify at 1.
  rewrite (truthy_VStr p Hp). cbn [negb].
  unfold bind, fs_stat. rewrite Hnode. unfold ret at 1.
  destruct (isLocal opts && String.eqb (p_extname (path w) p) ".js"); [reflexivity |].
  replace (isLocal opts && isDirectory (RegFile content)) with false
    by (now destruct (isLocal opts)).
  destruct (is_win32 w); simpl; [reflexivity |].
  now rewrite !sniff_outcome.
Qed.

(** C4 (amended). For an existing regular file: when the request marks it
    local and its name ends in [.js], it is classified loadable on every
    platform without being read; otherwise, on a POSIX-like platform, a
    file that can be opened, read and closed is classified loadable exactly
    when its first twenty bytes, the length of the line, are the bytes of
    the line, a file that cannot be opened or read rejects the
    classification with the error of the call, and on win32 the file is
    never classified loadable. *)
Theorem shebang_classification w opts fuel p content s :
  p <> "" ->
  fs_node w p = Some (RegFile content) ->
  let local_js := isLocal opts && String.eqb (p_extname (path w) p) ".js" in
  let s' := with_call (EvFindNodeScript (VStr p)) s in
  String.length shebang_line = 20%nat
  /\ (local_js = true ->
      findNodeScript w (S fuel) (VStr p) opts s = (Resolved (VStr p), s'))
  /\ (local_js = false -> w_platform w = PosixLike -> readable w p ->
      findNodeScript w (S fuel) (VStr p) opts s
      = (Resolved (if decide (take 20 content = list_byte_of_string shebang_line)
                   then VStr p else VBool false), s'))
  /\ (local_js = false -> w_platform w = PosixLike ->
      (forall e, w_open_error w p = Some e ->
         findNodeScript w (S fuel) (VStr p) opts s = (Rejected e, s'))
      /\ (forall e, w_open_error w p = None -> w_read_error w p = Some e ->
            w_close_error w p = None ->
            findNodeScript w (S fuel) (VStr p) opts s = (Rejected e, s'))
      /\ (forall e, w_open_error w p = None -> w_close_error w p = Some e ->
            findNodeScript w (S fuel) (VStr p) opts s = (Rejected e, s')))
  /\ (local_js = false -> w_platform w = Win32 ->
      findNodeScript w (S fuel) (VStr p) opts s = (Resolved VUndef, s')).
Proof.
  intros Hp Hnode. cbv zeta.
  pose proof (findNodeScript_file w opts fuel p content s Hp Hnode) as H.
  rewrite sniff_outcome, Hnode in H. cbn [fst] in H. unfold is_win32 in H.
  split; [reflexivity |]. split; [| split; [| split]].
  - intros E. now rewrite E in H.
  - intros E Hplat (Hopen & Hread & Hclose).
    now rewrite E, Hplat, Hopen, Hclose, Hread in H.
  - intros E Hplat. rewrite E, Hplat in H. split; [| split].
    + intros e Hopen. now rewrite Hopen in H.
    + intros e Hopen Hread Hclose. now rewrite Hopen, Hclose, Hread in H.
    + intros e Hopen Hclose. now rewrite Hopen, Hclose in H.
  - intros E Hplat. now rewrite E, Hplat in H.
Qed.

(** C10 (amended). On a POSIX-like platform, sniffing a regular file
    shorter than the twenty-byte line that can be opened, read and closed
    raises nothing: the read leaves the file's bytes followed by zeros in
    the buffer, and the classifier resolves to [false] in a state where the
    handle is closed again. When the file cannot be opened, the classifier
    rejects with the error of the open, and no handle is left open. *)
Theorem short_file_not_loadable w opts fuel p content s :
  w_platform w = PosixLike ->
  p <> "" ->
  fs_node w p = Some (RegFile content) ->
  (length content < 20)%nat ->
  isLocal opts && String.eqb (p_extname (path w) p) ".js" = false ->
  (readable w p ->
   (forall fd st, fds st !! fd = Some p ->
      fs_read w fd (repeat Byte.x00 20) 20 st
      = (Resolved (content ++ repeat Byte.x00 (20 - length content)), st))
   /\ content ++ repeat Byte.x00 (20 - length content)
      <> list_byte_of_string shebang_line
   /\ findNodeScript w (S fuel) (VStr p) opts s
      = (Resolved (VBool false), with_call (EvFindNodeScript (VStr p)) s))
  /\ (forall e, w_open_error w p = Some e ->
      findNodeScript w (S fuel) (VStr p) opts s
      = (Rejected e, with_call (EvFindNodeScript (VStr p)) s))
  /\ fds (snd (findNodeScript w (S fuel) (VStr p) opts s)) = fds s.
Proof.
  intros Hplat Hp Hnode Hlen Hjs.
  assert (drop (length content) (repeat Byte.x00 20)
          = repeat Byte.x00 (20 - length content)) as Hdrop.
  { clear - Hlen. generalize dependent (length content). intros n Hn.
    do 20 (destruct n as [| n]; [reflexivity |]). lia. }
  assert (take 20 content <> shebang_bytes) as Hne.
  { intros E. apply (f_equal (@length _)) in E.
    rewrite length_take in E. vm_compute (length shebang_bytes) in E. lia. }
  pose proof (findNodeScript_file w opts fuel p content s Hp Hnode) as Hrun.
  rewrite Hjs, sniff_outcome, Hnode in Hrun. unfold is_win32 in Hrun.
  rewrite Hplat in Hrun. cbn [fst] in Hrun.
  split; [| split].
  - intros (Hopen & Hread & Hclose). split; [| split].
    + intros fd st Hfd. unfold fs_read. rewrite Hfd, Hnode, Hread.
      rewrite take_ge by lia. now rewrite Hdrop.
    + intros E. apply Hne. apply padded_is_shebang.
      rewrite take_ge by lia. rewrite Hdrop. exact E.
    + rewrite Hrun, Hopen, Hclose, Hread.
      destruct (decide (take 20 content = shebang_bytes)); [contradiction | reflexivity].
  - intros e Hopen. now rewrite Hrun, Hopen.
  - now rewrite Hrun.
Qed.

(** The classifier on a local directory, up to the recursive call. *)
Lemma findNodeScript_directory w opts fuel p s :
  isLocal opts = true ->
  p <> "" ->
  fs_node w p = Some Directory ->
  String.eqb (p_extname (path w) p) ".js" = false ->
  findNodeScript w (S fuel) (VStr p) opts s
  = match manifest_target w p with
    | Some target =>
        (script <- findNodeScript w fuel (VStr target) opts ;;
         if truthy script then ret script
         else throw (new_Error (Y ("command not found: " +:+ target))))
          (with_call (EvFindNodeScript (VStr p)) s)
    | None =>
        (Rejected (new_Error (Y ("command not found: " +:+ p))),
         with_call (EvFindNodeScript (VStr p)) s)
    end.
Proof.
  intros Hlocal Hp Hnode Hext. cbn [findNodeScript].
  unfold bind at 1. unfold log_call at 1, modify at 1.
  rewrite (truthy_VStr p Hp). cbn [negb].
  unfold bind at 1. unfold fs_stat. rewrite Hnode. unfold ret at 1.
  rewrite Hlocal, Hext. cbn [andb isDirectory].
  destruct (manifest_target w p); reflexivity.
Qed.

(** C2 (amended). Classifying a request-local directory whose name does not
    end in [.js]: when the manifest cannot be required, or its entry point
    cannot be computed as a path, the classifier fails with "command not
    found" naming the directory; when the recursive classification of the
    entry point resolves to no script, it fails with "command not found"
    naming the resolved entry point. *)
Theorem directory_classification_failure w opts fuel p s :
  isLocal opts = true ->
  p <> "" ->
  fs_node w p = Some Directory ->
  String.eqb (p_extname (path w) p) ".js" = false ->
  let s0 := with_call (EvFindNodeScript (VStr p)) s in
  let manifest := w_require w (p_resolve (path w) [p; "package.json"]) in
  (manifest = None ->
   findNodeScript w (S fuel) (VStr p) opts s
   = (Rejected (new_Error ("command not found: " +:+ p)), s0))
  /\ (forall pkg, manifest = Some pkg ->
      (forall entry, entry_point pkg <> Some (JStr entry)) ->
      findNodeScript w (S fuel) (VStr p) opts s
      = (Rejected (new_Error ("command not found: " +:+ p)), s0))
  /\ (forall pkg entry script s',
      manifest = Some pkg ->
      entry_point pkg = Some (JStr entry) ->
      let target := p_resolve (path w) [p; entry] in
      findNodeScript w fuel (VStr target) opts s0 = (Resolved script, s') ->
      truthy script = false ->
      findNodeScript w (S fuel) (VStr p) opts s
      = (Rejected (new_Error ("command not found: " +:+ target)), s')).
Proof.
  intros Hlocal Hp Hnode Hext. cbv zeta.
  pose proof (findNodeScript_directory w opts fuel p s Hlocal Hp Hnode Hext) as H.
  unfold manifest_target in H. repeat split.
  - intros E. now rewrite E in H.
  - intros pkg E Hentry. rewrite E in H.
    destruct (entry_point pkg) as [[| | | entry | |] |]; try exact H.
    now destruct (Hentry entry).
  - intros pkg entry script s' E Hentry Hrec Hfalsy.
    rewrite E, Hentry in H. rewrite H.
    rewrite (bind_resolved _ _ _ _ _ Hrec). now rewrite Hfalsy.
Qed.

(** ** What a whole run leaves alone *)

(** Whatever follows [m] in a chain relates to where [m] ended. *)
Lemma keeps_after {A B} (R : State -> State -> Prop) (m : M A) (f : A -> M B) s :
  (forall s, R s s) ->
  (forall a, keeps R (f a)) ->
  R (snd (m s)) (snd (bind m f s)).
Proof.
  intros Hrefl Hf. unfold bind. destruct (m s) as [[a | e |] s1]; cbn [snd];
    try apply Hrefl.
  apply Hf.
Qed.

(** A relation that the writes of the run respect is kept by each function
    of the file; only the lemmas from [ensurePackages] on need the
    registration of the exit hook and the writes of the environment among
    those writes. *)
Section Bystander.

Variable w : World.
Variable R : State -> State -> Prop.
Hypothesis R_refl : forall s, R s s.
Hypothesis R_trans : forall a b c, R a b -> R b c -> R a c.
Hypothesis R_call : forall ev s, R s (with_call ev s).
Hypothesis R_argv : forall a s, R s (with_argv a s).
Hypothesis R_exitCode : forall c s, R s (with_exitCode c s).
Hypothesis R_out : forall l s, R s (with_out l s).
Hypothesis R_err : forall l s, R s (with_err l s).
Hypothesis R_env : forall e s, R s (with_env e s).
Hypothesis R_hook : forall d s, R s (with_exit_hook d s).

Ltac by_writes :=
  chain ltac:(apply keeps_modify; intros;
              first [ apply R_call | apply R_argv | apply R_exitCode | apply R_out
                    | apply R_err | apply R_env | apply R_hook ]).

Lemma which_kept cmd : keeps R (which w cmd).
Proof using R_refl. intros s. apply R_refl. Qed.

Lemma sniff_kept p : keeps R (sniff w p).
Proof using R_refl. intros s. rewrite sniff_outcome. apply R_refl. Qed.

Lemma findNodeScript_kept fuel :
  forall existing opts, keeps R (findNodeScript w fuel existing opts).
Proof using R_refl R_trans R_call.
  induction fuel as [| fuel IH]; intros existing opts; cbn [findNodeScript].
  - apply keeps_settle, R_refl.
  - pose proof sniff_kept. unfold log_call, fs_stat. by_writes.
Qed.

Lemma execCommand_kept fuel existing argv :
  keeps R (execCommand w fuel existing argv).
Proof using R_refl R_trans R_call R_argv R_exitCode.
  unfold execCommand, log_call, set_process_exitCode.
  pose proof (findNodeScript_kept fuel). by_writes.
Qed.

Lemma commandLocator_kept cmd results : keeps R (commandLocator w cmd results).
Proof using R_refl R_trans R_call.
  unfold commandLocator, pick_bin, fs_readdir, log_call. by_writes.
Qed.

Lemma cacheDir_kept opts : keeps R (cacheDir w opts).
Proof using R_refl R_trans.
  unfold cacheDir, getNpmCache, child_exec. pose proof which_kept. by_writes.
Qed.

Lemma installPackages_kept specs prefix opts :
  keeps R (installPackages w specs prefix opts).
Proof using R_refl R_trans R_call.
  unfold installPackages, child_spawn, log_call. pose proof which_kept. by_writes.
Qed.

Lemma resolveStage_kept argv : keeps R (resolveStage w argv).
Proof using R_refl R_trans.
  unfold resolveStage, getExistingPath, getEnv, child_exec.
  pose proof which_kept. by_writes.
Qed.

Lemma on_failure_kept argv e : keeps R (on_failure argv e).
Proof using R_refl R_trans R_err R_exitCode.
  unfold on_failure, console_error, set_process_exitCode. by_writes.
Qed.

Lemma ensurePackages_kept specs opts : keeps R (ensurePackages w specs opts).
Proof using R_refl R_trans R_call R_env R_hook.
  unfold ensurePackages, prepend_PATH, rimraf, log_call.
  pose proof cacheDir_kept. pose proof installPackages_kept. by_writes.
Qed.

Lemma installStage_kept existing argv : keeps R (installStage w existing argv).
Proof using R_refl R_trans R_call R_env R_hook R_err.
  unfold installStage, console_error, log_call.
  pose proof ensurePackages_kept. pose proof commandLocator_kept. by_writes.
Qed.

Lemma pipeline_kept fuel argv : keeps R (pipeline w fuel argv).
Proof using R_refl R_trans R_call R_env R_hook R_err R_argv R_exitCode.
  unfold pipeline, afterResolve.
  pose proof resolveStage_kept. pose proof installStage_kept.
  pose proof execCommand_kept. pose proof on_failure_kept. by_writes.
Qed.

Lemma npx_kept fuel argv : keeps R (npx w fuel argv).
Proof using R_refl R_trans R_call R_env R_hook R_err R_argv R_exitCode R_out.
  unfold npx, localBinPath, prepend_PATH, console_log, console_error,
    set_process_exitCode.
  pose proof pipeline_kept. by_writes.
Qed.

End Bystander.

Lemma execCommand_env_kept w fuel existing argv s :
  env (snd (execCommand w fuel existing argv s)) = env s.
Proof.
  apply (execCommand_kept w same_env); unfold same_env; intros; try reflexivity.
  congruence.
Qed.

(** ** The search path *)

Lemma resolveStage_pure w argv s : snd (resolveStage w argv s) = s.
Proof.
  pose (unchanged := fun s s' : State => s' = s).
  assert (forall a, unchanged a a) by reflexivity.
  assert (forall a b c, unchanged a b -> unchanged b c -> unchanged a c)
    by (unfold unchanged; congruence).
  assert (forall cmd, keeps unchanged (which w cmd)) by (intros cmd st; reflexivity).
  revert s. change (keeps unchanged (resolveStage w argv)).
  unfold resolveStage, getExistingPath, getEnv, child_exec.
  chain idtac.
Qed.


Lemma PATH_after_prepend w dir s :
  env (snd (prepend_PATH w dir s)) !! "PATH"
  = Some (dir +:+ PATH_SEP w +:+ tmpl (env s !! "PATH")).
Proof. unfold prepend_PATH, modify. simpl. apply lookup_insert_eq. Qed.

(** A successful install leaves its binary directory in front of the search
    path that was in effect when it started. *)
Lemma ensurePackages_PATH w specs opts s out s' :
  ensurePackages w specs opts s = (Resolved out, s') ->
  env s' !! "PATH" = Some (bin out +:+ PATH_SEP w +:+ tmpl (env s !! "PATH"))
  /\ exists cachedir, (prefix out, bin out) = install_bins w cachedir.
Proof.
  unfold ensurePackages. intros H.
  apply bind_inv in H as ([] & s1 & H1 & H).
  apply bind_inv in H as (cachedir & s2 & H2 & H).
  destruct (install_bins w cachedir) as [pre bins] eqn:Ebins.
  apply bind_inv in H as ([] & s3 & H3 & H).
  apply bind_inv in H as ([] & s4 & H4 & H).
  apply bind_inv in H as (info & s5 & H5 & H).
  apply bind_inv in H as ([] & s6 & H6 & H).
  assert (env s5 = env s) as Henv.
  { pose proof (log_call_env (EvEnsurePackages specs) s) as E1. rewrite H1 in E1.
    pose proof (cacheDir_env w opts s1) as E2. rewrite H2 in E2.
    assert (env s3 = env s2) as E3 by (injection H3 as <-; reflexivity).
    pose proof (rimraf_env w bins s3) as E4. rewrite H4 in E4.
    pose proof (installPackages_env w specs pre opts s4) as E5. rewrite H5 in E5.
    unfold same_env in *. simpl in *. congruence. }
  pose proof (PATH_after_prepend w bins s5) as HP. rewrite H6 in HP. simpl in HP.
  rewrite Henv in HP.
  assert (s' = s6 /\ bin out = bins /\ prefix out = pre) as (-> & -> & ->).
  { destruct info as [[| b | n | t | items | fields] |]; cbn in H;
      repeat match type of H with
             | context [if ?c then _ else _] => destruct c
             end;
      unfold ret, throw in H; try discriminate;
      injection H as <- <-; auto. }
  split; [exact HP | exists cachedir; now rewrite Ebins].
Qed.

(** The installer reads the state through the environment only. *)
Section EnvOnly.

Variable w : World.

Lemma env_only_ret {A} (a : A) : env_only (ret a).
Proof. intros s s' H. now split. Qed.

Lemma env_only_throw {A} (e : error) : env_only (@throw A e).
Proof. intros s s' H. now split. Qed.

Lemma env_only_settle {A} (r : settled A) : env_only (settle r).
Proof. intros s s' H. now split. Qed.

Lemma env_only_then2 {A B} (m : M A) (f : A -> M B) (h : error -> M B) :
  env_only m -> (forall a, env_only (f a)) -> (forall e, env_only (h e)) ->
  env_only (then2 m f h).
Proof.
  intros Hm Hf Hh s s' H. unfold then2. destruct (Hm s s' H) as [Hr He].
  destruct (m s) as [r s1], (m s') as [r' s1']. cbn [fst snd] in Hr, He. subst r'.
  destruct r as [a | e |]; [apply Hf | apply Hh | split]; auto.
Qed.

Lemma env_only_bind {A B} (m : M A) (f : A -> M B) :
  env_only m -> (forall a, env_only (f a)) -> env_only (bind m f).
Proof.
  intros Hm Hf s s' H. unfold bind. destruct (Hm s s' H) as [Hr He].
  destruct (m s) as [r s1], (m s') as [r' s1']. cbn [fst snd] in Hr, He. subst r'.
  destruct r as [a | e |]; [apply Hf | split | split]; auto.
Qed.

Lemma env_only_modify (f : State -> State) :
  (forall s s', env s = env s' -> env (f s) = env (f s')) -> env_only (modify f).
Proof. intros Hf s s' H. split; [reflexivity | now apply Hf]. Qed.

Lemma env_only_which cmd : env_only (which w cmd).
Proof. intros s s' H. unfold which. cbn. now rewrite H. Qed.

Ltac env_steps :=
  repeat first
    [ assumption
    | progress intros
    | apply env_only_bind
    | apply env_only_then2
    | apply env_only_ret
    | apply env_only_throw
    | apply env_only_settle
    | apply env_only_which
    | solve [apply env_only_modify; intros ? ? Henv; cbn; now rewrite ?Henv]
    | match goal with
      | |- env_only (if ?c then _ else _) => destruct c
      | |- env_only (match ?x with _ => _ end) => destruct x
      | |- env_only (let '(_, _) := ?x in _) => destruct x
      end ].

Lemma ensurePackages_env_only specs opts : env_only (ensurePackages w specs opts).
Proof.
  unfold ensurePackages, cacheDir, getNpmCache, installPackages, rimraf,
    child_spawn, child_exec, prepend_PATH, log_call.
  env_steps.
Qed.

End EnvOnly.

(** What a handler that leaves the environment alone adds to a chain. *)
Lemma catch_env {A} (m : M A) h s :
  (forall e, keeps same_env (h e)) ->
  env (snd (catch m h s)) = env (snd (m s)).
Proof.
  intros Hh. unfold catch, then2. destruct (m s) as [[a | e |] s1]; try reflexivity.
  apply Hh.
Qed.

Lemma installStage_tail_env w existing argv results :
  keeps same_env
    (match json_field "added" (summary results),
           json_field "updated" (summary results) with
     | Some added, Some updated =>
         when (json_truthy added && json_truthy updated && negb (q argv))
           (console_error (w_summary_line w added updated))
     | _, _ => ret tt
     end ;;;
     match command argv with
     | Some cmd =>
         if str_truthy (Some cmd) && negb (truthy existing)
            && negb (packageRequested argv)
         then
           match package argv with
           | Some specs =>
               if (length specs =? 1)%nat then commandLocator w cmd results
               else ret existing
           | None => throw (type_error "Cannot read property 'length' of undefined")
           end
         else ret existing
     | None => ret existing
     end).
Proof.
  pose proof same_env_refl. pose proof same_env_trans.
  assert (forall cmd r, keeps same_env (commandLocator w cmd r)) as Hloc.
  { intros cmd r. apply (commandLocator_kept w same_env); auto. }
  unfold console_error.
  chain ltac:(apply keeps_modify; intros; reflexivity).
Qed.

(** C5 (amended). Along a run of [npx] in which the install succeeds, the
    search path at the end is the install binary directory, the separator
    ([:] on POSIX, [;] on win32), and the value it had when the install
    started. Without a call string that earlier value is the project-local
    directory, when one was found, the separator and the ambient value, so
    the installed directory precedes both; with a call string the
    environment was replaced by the captured one before the install, and
    the earlier value is the search path of the captured environment. *)
Theorem installed_bins_lead_the_search_path
    w fuel argv s prefix0 existing newEnv results :
  let local := p_join (path w) [prefix0; "node_modules"; ".bin"] in
  let s0 := snd (when (str_truthy (Some local)) (prepend_PATH w local) s) in
  let s1 := match newEnv with Some e => with_env e s0 | None => s0 end in
  shell_auto_fallback argv = None ->
  str_truthy (call argv) = true
  \/ (str_truthy (command argv) = true /\ is_Some (package argv)) ->
  w_getPrefix w (w_cwd w) = Resolved prefix0 ->
  fst (resolveStage w argv s0) = Resolved (existing, newEnv) ->
  must_install existing argv = true ->
  fst (ensurePackages w (package argv) argv s1) = Resolved results ->
  let before :=
    match newEnv with
    | Some e => tmpl (e !! "PATH")
    | None =>
        if str_truthy (Some local)
        then local +:+ PATH_SEP w +:+ tmpl (env s !! "PATH")
        else tmpl (env s !! "PATH")
    end in
  env (snd (npx w fuel argv s)) !! "PATH"
  = Some (bin results +:+ PATH_SEP w +:+ before)
  /\ PATH_SEP w = match w_platform w with PosixLike => ":" | Win32 => ";" end
  /\ (exists cachedir, (prefix results, bin results) = install_bins w cachedir)
  /\ (str_truthy (call argv) = false -> newEnv = None).
Proof.
  cbv zeta. intros Hsh Hguard Hprefix Hres Hmust Hens.
  set (local := p_join (path w) [prefix0; "node_modules"; ".bin"]) in *.
  set (s0 := snd (when (str_truthy (Some local)) (prepend_PATH w local) s)) in *.
  set (s1 := match newEnv with Some e => with_env e s0 | None => s0 end) in *.
  assert (resolveStage w argv s0 = (Resolved (existing, newEnv), s0)) as Hres'.
  { pose proof (resolveStage_pure w argv s0) as Hpure.
    destruct (resolveStage w argv s0) as [r st]. cbn in Hres, Hpure. now subst. }
  (* the state in which the installer is entered *)
  set (notify := match npxPkg argv with
                 | Some pkg => when (str_truthy (Some pkg)) (log_call (EvUpdateNotifier pkg))
                 | None => ret tt
                 end).
  assert (exists s2, notify s1 = (Resolved tt, s2) /\ env s2 = env s1) as (s2 & Hnot & Henv2).
  { unfold notify. destruct (npxPkg argv) as [pkg |];
      [destruct (str_truthy (Some pkg)) |]; cbn; eauto. }
  destruct (ensurePackages_env_only w (package argv) argv s1 s2 (eq_sym Henv2))
    as [Hfst _].
  destruct (ensurePackages w (package argv) argv s2) as [r2 s3] eqn:Hens2.
  cbn [fst] in Hfst. rewrite Hens in Hfst. subst r2.
  destruct (ensurePackages_PATH w _ _ _ _ _ Hens2) as (HP & Hbins).
  (* the run, step by step *)
  assert (env (snd (npx w fuel argv s)) = env s3) as Hend.
  { unfold npx. rewrite Hsh.
    replace (negb (str_truthy (call argv))
             && (negb (str_truthy (command argv))
                 || negb (bool_decide (is_Some (package argv))))) with false.
    2:{ symmetry. destruct Hguard as [-> | [-> Hpkg]]; [reflexivity |].
        rewrite bool_decide_true by exact Hpkg. cbn. apply andb_false_r. }
    unfold localBinPath, bind at 1 2, settle. rewrite Hprefix. unfold ret at 1.
    fold local. unfold bind at 1.
    assert (when (str_truthy (Some local)) (prepend_PATH w local) s = (Resolved tt, s0))
      as Hwhen.
    { unfold s0. destruct (str_truthy (Some local)); reflexivity. }
    rewrite Hwhen. unfold pipeline.
    rewrite catch_env by (intros e; apply (on_failure_kept same_env);
                          unfold same_env; intros; try reflexivity; congruence).
    rewrite (bind_resolved _ _ _ _ _ Hres'). unfold afterResolve. cbn [fst snd].
    assert ((match newEnv with Some e => modify (with_env e) | None => ret tt end) s0
            = (Resolved tt, s1)) as Hstep by (unfold s1; now destruct newEnv).
    rewrite (bind_resolved _ _ _ _ _ Hstep).
    pose proof (keeps_after same_env (installStage w existing argv)
                  (fun v => execCommand w fuel v argv) s1 same_env_refl
                  (fun v st => execCommand_env_kept w fuel v argv st)) as Hexec.
    unfold same_env in Hexec. rewrite Hexec.
    unfold installStage. rewrite Hmust. fold notify.
    rewrite (bind_resolved _ _ _ _ _ Hnot), (bind_resolved _ _ _ _ _ Hens2).
    apply installStage_tail_env. }
  split; [| split; [| split]].
  - rewrite Hend, HP, Henv2. f_equal. f_equal. f_equal. unfold s1, s0.
    destruct newEnv as [e |]; [reflexivity |].
    destruct (str_truthy (Some local)); [| reflexivity].
    cbn [when]. now rewrite PATH_after_prepend.
  - unfold PATH_SEP, is_win32. now destruct (w_platform w).
  - exact Hbins.
  - intros Hcall. unfold resolveStage, promise_all2 in Hres'. rewrite Hcall in Hres'.
    destruct (match command argv with
              | Some cmd => if str_truthy (Some cmd) then getExistingPath w cmd argv
                            else ret (VStr cmd)
              | None => ret VUndef
              end s0) as [[x | x |] st]; cbn in Hres'; try discriminate.
    now injection Hres' as _ <- _.
Qed.

(** ** The lookup of an existing command *)

Lemma code_is_spec c e : code_is c e = true <-> code e = Some c.
Proof.
  unfold code_is. destruct (code e) as [c' |].
  - destruct (String.eqb_spec c' c); split; congruence.
  - split; discriminate.
Qed.

(** C6. [getExistingPath]: a request-local command is returned as it is; a
    version pin, an explicitly requested package or ignore-existing gives
    [false]; otherwise the search path is consulted: a hit is returned, a
    miss ([ENOENT]) becomes [undefined], unless installation is disabled
    ([install === false]), when the miss is rethrown with exit code 127; any
    other search error is rethrown unchanged. *)
Theorem existing_path_lookup w command opts s :
  let found := w_which w (env s !! "PATH") command in
  let skip := cmdHadVersion opts || packageRequested opts || ignoreExisting opts in
  (isLocal opts = true ->
   getExistingPath w command opts s = (Resolved (VStr command), s))
  /\ (isLocal opts = false -> skip = true ->
      getExistingPath w command opts s = (Resolved (VBool false), s))
  /\ (isLocal opts = false -> skip = false ->
      (forall p, found = Resolved p ->
         getExistingPath w command opts s = (Resolved (VStr p), s))
      /\ (forall e, found = Rejected e -> code e = Some "ENOENT" ->
          install opts <> Some false ->
          getExistingPath w command opts s = (Resolved VUndef, s)
          /\ truthy VUndef = false)
      /\ (forall e, found = Rejected e -> code e = Some "ENOENT" ->
          install opts = Some false ->
          getExistingPath w command opts s = (Rejected (set_exitCode 127 e), s)
          /\ exitCode (set_exitCode 127 e) = Some 127)
      /\ (forall e, found = Rejected e -> code e <> Some "ENOENT" ->
          getExistingPath w command opts s = (Rejected e, s))).
Proof.
  cbv zeta. unfold getExistingPath. split; [| split].
  - intros ->. reflexivity.
  - intros -> ->. reflexivity.
  - intros -> ->. unfold catch, then2, bind, which.
    split; [| split; [| split]].
    + intros p ->. reflexivity.
    + intros e -> Hcode Hinst. apply code_is_spec in Hcode. rewrite Hcode.
      split; [| reflexivity].
      destruct (install opts) as [[|] |]; try reflexivity. congruence.
    + intros e -> Hcode Hinst. apply code_is_spec in Hcode.
      rewrite Hcode, Hinst. split; reflexivity.
    + intros e -> Hcode.
      destruct (code_is "ENOENT" e) eqn:E; [| reflexivity].
      apply code_is_spec in E. contradiction.
Qed.

(** ** Failures and the exit code *)

(** The cache directory depends on the state through the environment only,
    and leaves the state as it was. *)
Lemma cacheDir_reads_env w opts s s' :
  env s = env s' ->
  cacheDir w opts s' = (fst (cacheDir w opts s), s').
Proof.
  intros E. unfold cacheDir.
  assert (getNpmCache w opts s' = (fst (getNpmCache w opts s), s')) as Hg.
  { unfold getNpmCache, child_exec, bind, which, settle, ret. cbn.
    rewrite E.
    destruct (w_which w (env s' !! "PATH") (npm opts)) as [npmPath | e |];
      cbn; try reflexivity.
    destruct (w_exec w npmPath _) as [text | e |]; reflexivity. }
  destruct (cache opts) as [c |]; [destruct (str_truthy (Some c)) |];
    try exact Hg; reflexivity.
Qed.

(** A rejected install subprocess with a non-zero exit code: the error is
    relabelled and rethrown. *)
Lemma installPackages_rejected w specs prefix opts s npmPath e c :
  w_which w (env s !! "PATH") (npm opts) = Resolved npmPath ->
  w_spawn w npmPath (buildArgs specs prefix opts) (q opts) = Rejected e ->
  exitCode e = Some c -> c <> 0 ->
  installPackages w specs prefix opts s
  = (Rejected (set_message (install_failed_message specs c) e),
     with_call (EvSpawnInstall npmPath (buildArgs specs prefix opts)) s).
Proof.
  intros Hwhich Hspawn Hc Hnz. unfold installPackages.
  unfold bind at 1. unfold which. rewrite Hwhich.
  unfold then2, child_spawn, bind, log_call, modify, settle. cbn [env with_call].
  rewrite Hspawn. unfold exitCode_truthy. rewrite Hc.
  destruct (Z.eqb_spec c 0); [contradiction | reflexivity].
Qed.

(** What the final handler leaves behind. *)
Lemma on_failure_state argv e s :
  on_failure argv e s
  = (Resolved tt,
     with_exitCode (exitCode_or_1 e)
       (if q argv then s else with_err (message e) s)).
Proof. unfold on_failure. destruct (q argv); reflexivity. Qed.

Lemma rimraf_resolved w dir s :
  w_rimraf w dir = Resolved tt ->
  rimraf w dir s = (Resolved tt, with_call (EvRimraf dir) s).
Proof.
  intros H. unfold rimraf, bind, log_call, modify, settle. now rewrite H.
Qed.

(** A rejected install subprocess rejects the installer; up to there only
    the call log and the exit hooks have changed. *)
Lemma ensurePackages_rejected w specs opts s cachedir npmPath e c :
  fst (cacheDir w opts s) = Resolved cachedir ->
  w_rimraf w (snd (install_bins w cachedir)) = Resolved tt ->
  w_which w (env s !! "PATH") (npm opts) = Resolved npmPath ->
  w_spawn w npmPath (buildArgs specs (fst (install_bins w cachedir)) opts)
    (q opts) = Rejected e ->
  exitCode e = Some c -> c <> 0 ->
  exists s',
    ensurePackages w specs opts s
    = (Rejected (set_message (install_failed_message specs c) e), s')
    /\ err s' = err s /\ env s' = env s.
Proof.
  intros Hcache Hrim Hwhich Hspawn Hc Hnz. unfold ensurePackages.
  set (s1 := with_call (EvEnsurePackages specs) s).
  assert (log_call (EvEnsurePackages specs) s = (Resolved tt, s1)) as H1
    by reflexivity.
  rewrite (bind_resolved _ _ _ _ _ H1).
  assert (cacheDir w opts s1 = (Resolved cachedir, s1)) as H2.
  { rewrite (cacheDir_reads_env w opts s s1) by reflexivity. now rewrite Hcache. }
  rewrite (bind_resolved _ _ _ _ _ H2).
  destruct (install_bins w cachedir) as [pre bins] eqn:Ebins.
  cbn [fst snd] in Hrim, Hspawn.
  set (s2 := with_exit_hook pre s1).
  assert (modify (with_exit_hook pre) s1 = (Resolved tt, s2)) as H3 by reflexivity.
  rewrite (bind_resolved _ _ _ _ _ H3).
  rewrite (bind_resolved _ _ _ _ _ (rimraf_resolved w bins s2 Hrim)).
  erewrite bind_rejected
    by (apply (installPackages_rejected w specs pre opts _ npmPath e c);
        assumption).
  eexists. split; [reflexivity |]. split; reflexivity.
Qed.

Lemma installStage_rejected w argv existing s cachedir npmPath e c :
  must_install existing argv = true ->
  fst (cacheDir w argv s) = Resolved cachedir ->
  w_rimraf w (snd (install_bins w cachedir)) = Resolved tt ->
  w_which w (env s !! "PATH") (npm argv) = Resolved npmPath ->
  w_spawn w npmPath (buildArgs (package argv) (fst (install_bins w cachedir)) argv)
    (q argv) = Rejected e ->
  exitCode e = Some c -> c <> 0 ->
  exists s',
    installStage w existing argv s
    = (Rejected (set_message (install_failed_message (package argv) c) e), s')
    /\ err s' = err s.
Proof.
  intros Hmust Hcache Hrim Hwhich Hspawn Hc Hnz.
  unfold installStage. rewrite Hmust.
  set (notify := match npxPkg argv with
                 | Some pkg => when (str_truthy (Some pkg)) (log_call (EvUpdateNotifier pkg))
                 | None => ret tt
                 end).
  assert (exists sn, notify s = (Resolved tt, sn)
                     /\ err sn = err s /\ env sn = env s)
    as (sn & Hn & Hen & Hvn).
  { subst notify. destruct (npxPkg argv) as [pkg |];
      [destruct (str_truthy (Some pkg)) |]; eexists; repeat split. }
  rewrite (bind_resolved _ _ _ _ _ Hn).
  destruct (ensurePackages_rejected w (package argv) argv sn cachedir npmPath e c)
    as (s' & Hens & Herr & _); try assumption.
  - rewrite (cacheDir_reads_env w argv s sn) by (now symmetry). now rewrite Hcache.
  - now rewrite Hvn.
  - rewrite (bind_rejected _ _ _ _ _ Hens). exists s'. split; [reflexivity | congruence].
Qed.

(** C7. When the install subprocess is rejected with a non-zero exit code
    [c], [installPackages] rethrows the error with the message "Install for
    <specifiers> failed with code <c>" and its exit code untouched; the run
    ends with the process exit code set to [c], and the message on the
    error stream unless the request is quiet. *)
Theorem install_failure_exit_code w fuel argv s0 args cachedir npmPath e c :
  fst (resolveStage w argv s0) = Resolved args ->
  let s := match snd args with Some e' => with_env e' s0 | None => s0 end in
  let prefix := fst (install_bins w cachedir) in
  let msg := "Install for " +:+ specs_text (package argv)
             +:+ " failed with code " +:+ pretty c in
  must_install (fst args) argv = true ->
  fst (cacheDir w argv s) = Resolved cachedir ->
  w_rimraf w (snd (install_bins w cachedir)) = Resolved tt ->
  w_which w (env s !! "PATH") (npm argv) = Resolved npmPath ->
  w_spawn w npmPath (buildArgs (package argv) prefix argv) (q argv) = Rejected e ->
  exitCode e = Some c -> c <> 0 ->
  fst (installPackages w (package argv) prefix argv s) = Rejected (set_message msg e)
  /\ message (set_message msg e) = msg
  /\ exitCode (set_message msg e) = Some c
  /\ exists s',
       pipeline w fuel argv s0 = (Resolved tt, s')
       /\ proc_exitCode s' = Some c
       /\ err s' = err s0 ++ (if q argv then [] else [msg]).
Proof.
  intros Hres. cbv zeta. intros Hmust Hcache Hrim Hwhich Hspawn Hc Hnz.
  split; [| split; [reflexivity | split; [exact Hc |]]].
  { rewrite (installPackages_rejected w _ _ argv _ npmPath e c); auto. }
  assert (resolveStage w argv s0 = (Resolved args, s0)) as Hres'.
  { pose proof (resolveStage_pure w argv s0) as Hpure.
    destruct (resolveStage w argv s0) as [r st]. cbn in Hres, Hpure. now subst. }
  set (s := match snd args with Some e' => with_env e' s0 | None => s0 end) in *.
  destruct (installStage_rejected w argv (fst args) s cachedir npmPath e c)
    as (s' & Hstage & Herr); try assumption.
  assert (err s = err s0) as Herr0 by (subst s; now destruct (snd args)).
  assert ((args0 <- resolveStage w argv ;; afterResolve w fuel argv args0) s0
          = (Rejected (set_message (install_failed_message (package argv) c) e), s'))
    as Hchain.
  { rewrite (bind_resolved _ _ _ _ _ Hres'). unfold afterResolve.
    assert ((match snd args with
             | Some e0 => modify (with_env e0)
             | None => ret tt
             end) s0 = (Resolved tt, s)) as Henvstep
      by (subst s; now destruct (snd args)).
    rewrite (bind_resolved _ _ _ _ _ Henvstep).
    now rewrite (bind_rejected _ _ _ _ _ Hstage). }
  unfold pipeline. rewrite (catch_rejected _ _ _ _ _ Hchain), on_failure_state.
  eexists. split; [reflexivity |]. split.
  - cbn. unfold exitCode_or_1. cbn. rewrite Hc. now destruct (Z.eqb_spec c 0).
  - destruct (q argv); cbn; rewrite Herr, Herr0; [now rewrite app_nil_r | reflexivity].
Qed.

(** ** The executor *)

(** [execCommand] once the classifier has resolved. *)
Lemma execCommand_after_classifier w fuel _existing argv s existing s1 :
  findNodeScript w fuel _existing argv s = (Resolved existing, s1) ->
  execCommand w fuel _existing argv s
  = if takes_over w existing argv s1 then
      (when (negb (noYargs argv)) (log_call EvYargsReset) ;;;
       modify (fun st =>
         with_argv ([nth 0 (proc_argv st) VUndef; existing] ++ map VStr (cmdOpts argv)) st) ;;;
       args <- gets proc_argv ;;
       log_call (EvRunMain args) ;;;
       settle (w_runMain w args)) s1
    else
      catch (log_call (EvRunCommand existing) ;;;
             e <- gets env ;;
             settle (w_runCommand w existing argv e))
        (fun err =>
           if isOperational err && exitCode_truthy err then
             set_process_exitCode (default 0 (exitCode err))
           else throw err) s1.
Proof.
  intros H. unfold execCommand. rewrite (bind_resolved _ _ _ _ _ H).
  unfold bind at 1. unfold gets at 1.
  destruct (takes_over w existing argv s1); reflexivity.
Qed.

(** C8. In the spawn path, a child failure that is operational and carries
    a non-zero exit code resolves the executor with the process exit code
    set to the child's and nothing written; any other child failure is
    rethrown unchanged, and the final handler then writes its message
    (unless the request is quiet) and sets the exit code to the attached
    non-zero one, else 1. *)
Theorem child_failure_outcome w fuel _existing argv s existing s1 e :
  findNodeScript w fuel _existing argv s = (Resolved existing, s1) ->
  takes_over w existing argv s1 = false ->
  w_runCommand w existing argv (env s1) = Rejected e ->
  let s2 := with_call (EvRunCommand existing) s1 in
  (forall c, isOperational e = true -> exitCode e = Some c -> c <> 0 ->
     execCommand w fuel _existing argv s = (Resolved tt, with_exitCode c s2)
     /\ proc_exitCode (with_exitCode c s2) = Some c
     /\ err (with_exitCode c s2) = err s1
     /\ out (with_exitCode c s2) = out s1)
  /\ (isOperational e && exitCode_truthy e = false ->
      execCommand w fuel _existing argv s = (Rejected e, s2)
      /\ exists s3,
           catch (execCommand w fuel _existing argv) (on_failure argv) s
           = (Resolved tt, s3)
           /\ err s3 = err s1 ++ (if q argv then [] else [message e])
           /\ proc_exitCode s3
              = Some (match exitCode e with
                      | Some c => if c =? 0 then 1 else c
                      | None => 1
                      end)
           /\ proc_exitCode s3 <> Some 0).
Proof.
  intros Hcls Hspawn Hrun. cbv zeta.
  pose proof (execCommand_after_classifier w fuel _existing argv s existing s1 Hcls)
    as Hexec.
  rewrite Hspawn in Hexec.
  unfold catch, then2, bind, log_call, modify, gets, settle in Hexec.
  cbn [env with_call] in Hexec. rewrite Hrun in Hexec.
  split.
  - intros c Hop Hc Hnz. rewrite Hexec, Hop. unfold exitCode_truthy. rewrite Hc.
    destruct (Z.eqb_spec c 0); [contradiction |]. cbn. repeat split.
  - intros Hother. rewrite Hother in Hexec. split; [exact Hexec |].
    rewrite (catch_rejected _ _ _ _ _ Hexec), on_failure_state.
    eexists. split; [reflexivity |]. repeat split.
    + destruct (q argv); cbn; [now rewrite app_nil_r | reflexivity].
    + cbn. unfold exitCode_or_1. destruct (exitCode e) as [c |]; [| discriminate].
      destruct (Z.eqb_spec c 0); congruence.
Qed.

(** C9. Once the target is classified, the executor takes over the process
    exactly when the target is truthy, the module loader has its [runMain],
    the request does not force a shell, and the target is not the running
    entry script: the argument vector becomes the interpreter, the target
    and the command's options, and the run ends as [runMain] does. In every
    other case, also when nothing was resolved, it spawns the command with
    the argument vector untouched, and ends as the child does, an
    operational failure with an exit code becoming that exit code. Where
    [runMain] is defined, as on Node, the condition is the claim's. *)
Theorem execution_strategy w fuel _existing argv s existing s1 :
  findNodeScript w fuel _existing argv s = (Resolved existing, s1) ->
  let in_process :=
    truthy existing && w_has_runMain w && negb (str_truthy (shell argv))
    && negb (strict_eq existing (nth 1 (proc_argv s1) VUndef)) in
  let args := [nth 0 (proc_argv s1) VUndef; existing] ++ map VStr (cmdOpts argv) in
  let spawned := with_call (EvRunCommand existing) s1 in
  (in_process = true ->
   execCommand w fuel _existing argv s
   = (w_runMain w args,
      with_call (EvRunMain args)
        (with_argv args (if noYargs argv then s1 else with_call EvYargsReset s1))))
  /\ (in_process = false ->
      execCommand w fuel _existing argv s
      = match w_runCommand w existing argv (env s1) with
        | Resolved _ => (Resolved tt, spawned)
        | Rejected e =>
            if isOperational e && exitCode_truthy e
            then (Resolved tt, with_exitCode (default 0 (exitCode e)) spawned)
            else (Rejected e, spawned)
        | Pending => (Pending, spawned)
        end)
  /\ (in_process = false ->
      proc_argv (snd (execCommand w fuel _existing argv s)) = proc_argv s1
      /\ forall a, ~ In (EvRunMain a) (drop (length (calls s1))
                                        (calls (snd (execCommand w fuel _existing argv s)))))
  /\ (truthy existing = false -> in_process = false)
  /\ (w_has_runMain w = true ->
      in_process
      = truthy existing && negb (str_truthy (shell argv))
        && negb (strict_eq existing (nth 1 (proc_argv s1) VUndef))).
Proof.
  intros Hcls. cbv zeta.
  rewrite (execCommand_after_classifier w fuel _existing argv s existing s1 Hcls).
  unfold takes_over.
  assert (forall r : settled unit * State,
            r = match w_runCommand w existing argv (env s1) with
                | Resolved _ => (Resolved tt, with_call (EvRunCommand existing) s1)
                | Rejected e =>
                    if isOperational e && exitCode_truthy e
                    then (Resolved tt,
                          with_exitCode (default 0 (exitCode e))
                            (with_call (EvRunCommand existing) s1))
                    else (Rejected e, with_call (EvRunCommand existing) s1)
                | Pending => (Pending, with_call (EvRunCommand existing) s1)
                end ->
            proc_argv (snd r) = proc_argv s1
            /\ calls (snd r) = calls s1 ++ [EvRunCommand existing]) as Hspawn.
  { intros r ->. destruct (w_runCommand w existing argv (env s1)) as [[] | e |];
      [| destruct (isOperational e && exitCode_truthy e) | ]; now split. }
  assert (catch (log_call (EvRunCommand existing) ;;;
                 e <- gets env ;; settle (w_runCommand w existing argv e))
            (fun err =>
               if isOperational err && exitCode_truthy err
               then set_process_exitCode (default 0 (exitCode err))
               else throw err) s1
          = match w_runCommand w existing argv (env s1) with
            | Resolved _ => (Resolved tt, with_call (EvRunCommand existing) s1)
            | Rejected e =>
                if isOperational e && exitCode_truthy e
                then (Resolved tt,
                      with_exitCode (default 0 (exitCode e))
                        (with_call (EvRunCommand existing) s1))
                else (Rejected e, with_call (EvRunCommand existing) s1)
            | Pending => (Pending, with_call (EvRunCommand existing) s1)
            end) as Hchild.
  { unfold catch, then2, bind, log_call, modify, gets, settle. cbn.
    destruct (w_runCommand w existing argv (env s1)) as [[] | e |]; cbn;
      try reflexivity.
    destruct (isOperational e && exitCode_truthy e); reflexivity. }
  split; [| split; [| split; [| split]]].
  - intros ->. unfold bind, when, log_call, modify, gets, settle, ret.
    destruct (noYargs argv); reflexivity.
  - intros ->. exact Hchild.
  - intros ->. destruct (Hspawn _ Hchild) as [Hargv Hcalls].
    split; [exact Hargv |]. intros a. rewrite Hcalls, drop_app_length.
    intros [Hin | []]. discriminate Hin.
  - intros ->. reflexivity.
  - intros ->. now rewrite andb_true_r.
Qed.

(** ** The locator *)

(** [bins[matching]] is a lookup by name: for a command that gives a
    pattern, unless the matching name happens to be a property of the
    array, the first entry of the listing is chosen, whatever matched. *)
Lemma pick_bin_falls_back w command results_bin b rest s :
  command_error w command = None ->
  ArrayKey.get (w_array_inherits w) (b :: rest)
    (tmpl (find (command_test w command) (b :: rest))) = VUndef ->
  pick_bin w command results_bin (b :: rest) s
  = (Resolved (VStr (p_resolve (path w) [results_bin; b])), s).
Proof. intros Hc H. unfold pick_bin. rewrite Hc, H. reflexivity. Qed.

(** C1. The locator on the listing [bar, Foo.cmd] and the command [foo]:
    the entry [Foo.cmd] matches, the lookup of the array by that name gives
    [undefined], and the path of the first entry, [bar], is returned; the
    run goes on to classify [bar]. On the listing [Foo.cmd, bar] the match
    is returned because it is listed first, and so it is for the command
    [zzz], which matches nothing. *)
Theorem locator_indexes_by_name :
  command_test Sample.quiet_world "foo" "Foo.cmd" = true
  /\ command_test Sample.quiet_world "foo" "bar" = false
  /\ find (command_test Sample.quiet_world "foo") ["bar"; "Foo.cmd"] = Some "Foo.cmd"
  /\ ArrayKey.get (w_array_inherits Sample.quiet_world) ["bar"; "Foo.cmd"] "Foo.cmd"
     = VUndef
  /\ pick_bin Sample.quiet_world "foo" "/home/u/.npm/_npx/4242/bin" ["bar"; "Foo.cmd"]
       Sample.start
     = (Resolved (VStr "/home/u/.npm/_npx/4242/bin/bar"), Sample.start)
  /\ fst (commandLocator Sample.quiet_world "foo"
            {| summary := []; prefix := "/home/u/.npm/_npx/4242";
               bin := "/home/u/.npm/_npx/4242/bin" |} Sample.start)
     = Resolved (VStr "/home/u/.npm/_npx/4242/bin/bar")
  /\ In (EvFindNodeScript (VStr "/home/u/.npm/_npx/4242/bin/bar"))
       (calls (snd (npx Sample.quiet_world 5 (Sample.request "foo") Sample.start)))
  /\ pick_bin Sample.quiet_world "foo" "/home/u/.npm/_npx/4242/bin" ["Foo.cmd"; "bar"]
       Sample.start
     = (Resolved (VStr "/home/u/.npm/_npx/4242/bin/Foo.cmd"), Sample.start)
  /\ pick_bin Sample.quiet_world "zzz" "/home/u/.npm/_npx/4242/bin" ["Foo.cmd"; "bar"]
       Sample.start
     = (Resolved (VStr "/home/u/.npm/_npx/4242/bin/Foo.cmd"), Sample.start).
Proof.
  repeat split.
  vm_compute. right. right. right. right. left. reflexivity.
Qed.

(** ** Worked runs on the sample machine *)

Import Sample.

(** The run [npx -c 'echo hi'] finds no existing path, enters no installer
    and spawns the command: C3 as stated fails here. *)
Lemma call_string_skips_installer :
  fst (resolveStage quiet_world (call_request "echo hi") started)
  = Resolved (VUndef, Some {[ "PATH" := "/npm/bin:/usr/bin" ]})
  /\ truthy VUndef = false
  /\ packageRequested (call_request "echo hi") = false
  /\ calls (snd ((existing' <- installStage quiet_world VUndef (call_request "echo hi") ;;
                  execCommand quiet_world 5 existing' (call_request "echo hi")) started))
     = [EvFindNodeScript VUndef; EvRunCommand (VBool false)]
  /\ calls (snd (npx quiet_world 5 (call_request "echo hi") start))
     = [EvFindNodeScript VUndef; EvRunCommand (VBool false)].
Proof. vm_compute. repeat split. Qed.

Lemma install_decision_witness :
  (exists post,
     calls (snd ((existing' <- installStage quiet_world (VStr "/usr/bin/ls") (request "ls") ;;
                  execCommand quiet_world 5 existing' (request "ls")) started))
     = calls started ++ post
     /\ Forall (fun ev => is_entry ev = false) post)
  /\ (exists pre post,
        calls (snd ((existing' <- installStage quiet_world VUndef (request "foo") ;;
                     execCommand quiet_world 5 existing' (request "foo")) started))
        = calls started ++ pre ++ EvEnsurePackages (package (request "foo")) :: post
        /\ Forall (fun ev => is_notifier ev = true) pre).
Proof.
  split.
  - apply (proj1 (install_decision quiet_world 5 (request "ls") (VStr "/usr/bin/ls") started)).
    reflexivity.
  - apply (proj2 (install_decision quiet_world 5 (request "foo") VUndef started)).
    reflexivity.
Defined.

(** The manifest of [/srv/tool] points at [/srv/shared/run], which has no
    shebang line: the failure names that file and not the directory. C2 as
    stated fails here. *)
Lemma directory_failure_names_entry_point :
  fs_node quiet_world "/srv/tool" = Some Directory
  /\ manifest_target quiet_world "/srv/tool" = Some "/srv/shared/run"
  /\ fst (findNodeScript quiet_world 1 (VStr "/srv/shared/run") (local_request "/srv/tool")
            (with_call (EvFindNodeScript (VStr "/srv/tool")) start))
     = Resolved (VBool false)
  /\ fst (findNodeScript quiet_world 2 (VStr "/srv/tool") (local_request "/srv/tool") start)
     = Rejected (new_Error "command not found: /srv/shared/run")
  /\ String.index 0 "/srv/tool" "command not found: /srv/shared/run" = None.
Proof. vm_compute. repeat split. Qed.

Lemma directory_classification_failure_witness :
  findNodeScript quiet_world 2 (VStr "/srv/broken") (local_request "/srv/broken") start
  = (Rejected (new_Error "command not found: /srv/broken"),
     with_call (EvFindNodeScript (VStr "/srv/broken")) start)
  /\ findNodeScript quiet_world 2 (VStr "/srv/multi") (local_request "/srv/multi") start
     = (Rejected (new_Error "command not found: /srv/multi"),
        with_call (EvFindNodeScript (VStr "/srv/multi")) start)
  /\ fst (findNodeScript quiet_world 2 (VStr "/srv/tool") (local_request "/srv/tool") start)
     = Rejected (new_Error "command not found: /srv/shared/run").
Proof.
  split; [| split].
  - apply (proj1 (directory_classification_failure quiet_world
             (local_request "/srv/broken") 1 "/srv/broken" start
             eq_refl ltac:(discriminate) eq_refl eq_refl)).
    reflexivity.
  - apply (proj1 (proj2 (directory_classification_failure quiet_world
             (local_request "/srv/multi") 1 "/srv/multi" start
             eq_refl ltac:(discriminate) eq_refl eq_refl))
             (JObj [("name", JStr "multi"); ("bin", JObj [("a", JStr "a.js")])])).
    + reflexivity.
    + intros entry. discriminate.
  - rewrite (proj2 (proj2 (directory_classification_failure quiet_world
               (local_request "/srv/tool") 1 "/srv/tool" start
               eq_refl ltac:(discriminate) eq_refl eq_refl))
               (JObj [("name", JStr "tool"); ("bin", JStr "../shared/run")])
               "../shared/run" (VBool false)
               (with_call (EvFindNodeScript (VStr "/srv/shared/run"))
                  (with_call (EvFindNodeScript (VStr "/srv/tool")) start))
               eq_refl eq_refl eq_refl eq_refl).
    reflexivity.
Defined.

(** [/srv/app.js] does not start with the shebang line, and a request that
    marks it local classifies it loadable: C4 as stated fails here. *)
Lemma local_js_is_loadable_without_shebang :
  fs_node quiet_world "/srv/app.js" = Some (RegFile (list_byte_of_string "console.log(1)"))
  /\ w_platform quiet_world = PosixLike
  /\ take 20 (list_byte_of_string "console.log(1)") <> list_byte_of_string shebang_line
  /\ findNodeScript quiet_world 1 (VStr "/srv/app.js") (local_request "/srv/app.js") start
     = (Resolved (VStr "/srv/app.js"),
        with_call (EvFindNodeScript (VStr "/srv/app.js")) start)
  /\ truthy (VStr "/srv/app.js") = true.
Proof. repeat split. vm_compute. discriminate. Qed.

Lemma shebang_classification_witness :
  findNodeScript quiet_world 1 (VStr "/srv/app.js") (local_request "/srv/app.js") start
  = (Resolved (VStr "/srv/app.js"), with_call (EvFindNodeScript (VStr "/srv/app.js")) start)
  /\ findNodeScript quiet_world 1 (VStr "/srv/script") (request "script") start
     = (Resolved (VStr "/srv/script"), with_call (EvFindNodeScript (VStr "/srv/script")) start)
  /\ findNodeScript quiet_world 1 (VStr "/usr/bin/ls") (request "ls") start
     = (Resolved (VBool false), with_call (EvFindNodeScript (VStr "/usr/bin/ls")) start)
  /\ findNodeScript (Cases.refusing "/usr/bin/ls" quiet_world) 1 (VStr "/usr/bin/ls")
       (request "ls") start
     = (Rejected (Cases.permission_denied "/usr/bin/ls"),
        with_call (EvFindNodeScript (VStr "/usr/bin/ls")) start)
  /\ findNodeScript win32_world 1 (VStr "C:/tools/run.cmd") (request "run") start
     = (Resolved VUndef, with_call (EvFindNodeScript (VStr "C:/tools/run.cmd")) start).
Proof.
  split; [| split; [| split; [| split]]].
  - destruct (shebang_classification quiet_world (local_request "/srv/app.js")
                0 "/srv/app.js" (list_byte_of_string "console.log(1)") start
                ltac:(discriminate) eq_refl) as (_ & Hlocal & _).
    apply Hlocal. reflexivity.
  - destruct (shebang_classification quiet_world (request "script")
                0 "/srv/script" (list_byte_of_string (shebang_line +:+ "main()")) start
                ltac:(discriminate) eq_refl) as (_ & _ & Hposix & _).
    apply Hposix; [reflexivity | reflexivity |].
    split; [| split]; reflexivity.
  - destruct (shebang_classification quiet_world (request "ls")
                0 "/usr/bin/ls" (list_byte_of_string "ELF") start
                ltac:(discriminate) eq_refl) as (_ & _ & Hposix & _).
    apply Hposix; [reflexivity | reflexivity |].
    split; [| split]; reflexivity.
  - destruct (shebang_classification (Cases.refusing "/usr/bin/ls" quiet_world)
                (request "ls") 0 "/usr/bin/ls" (list_byte_of_string "ELF") start
                ltac:(discriminate) eq_refl) as (_ & _ & _ & Hfail & _).
    destruct (Hfail eq_refl eq_refl) as (Hopen & _).
    apply Hopen. reflexivity.
  - destruct (shebang_classification win32_world (request "run")
                0 "C:/tools/run.cmd" (list_byte_of_string (shebang_line +:+ "main()")) start
                ltac:(discriminate) eq_refl) as (_ & _ & _ & _ & Hwin).
    apply Hwin; reflexivity.
Defined.

(** [/srv/short] holds nine bytes; where the process may not open it, the
    sniff raises the error of the open: C10 as stated fails here. *)
Lemma short_unreadable_file_is_an_error :
  fs_node (Cases.refusing "/srv/short" quiet_world) "/srv/short"
  = Some (RegFile (list_byte_of_string "#!/bin/sh"))
  /\ w_platform (Cases.refusing "/srv/short" quiet_world) = PosixLike
  /\ length (list_byte_of_string "#!/bin/sh") = 9%nat
  /\ findNodeScript (Cases.refusing "/srv/short" quiet_world) 1 (VStr "/srv/short")
       (request "short") start
     = (Rejected (Cases.permission_denied "/srv/short"),
        with_call (EvFindNodeScript (VStr "/srv/short")) start)
  /\ code (Cases.permission_denied "/srv/short") = Some "EACCES".
Proof. split; [| split; [| split; [| split]]]; vm_compute; reflexivity. Qed.

Lemma short_file_not_loadable_witness :
  findNodeScript quiet_world 1 (VStr "/srv/short") (request "short") start
  = (Resolved (VBool false), with_call (EvFindNodeScript (VStr "/srv/short")) start)
  /\ findNodeScript (Cases.refusing "/srv/short" quiet_world) 1 (VStr "/srv/short")
       (request "short") start
     = (Rejected (Cases.permission_denied "/srv/short"),
        with_call (EvFindNodeScript (VStr "/srv/short")) start)
  /\ fds (snd (findNodeScript quiet_world 1 (VStr "/srv/short") (request "short") start))
     = fds start.
Proof.
  split; [| split].
  - destruct (short_file_not_loadable quiet_world (request "short") 0
                "/srv/short" (list_byte_of_string "#!/bin/sh") start
                eq_refl ltac:(discriminate) eq_refl ltac:(vm_compute; lia) eq_refl)
      as (Hreadable & _).
    apply Hreadable. split; [| split]; reflexivity.
  - destruct (short_file_not_loadable (Cases.refusing "/srv/short" quiet_world)
                (request "short") 0
                "/srv/short" (list_byte_of_string "#!/bin/sh") start
                eq_refl ltac:(discriminate) eq_refl ltac:(vm_compute; lia) eq_refl)
      as (_ & Hdenied & _).
    apply Hdenied. reflexivity.
  - apply (short_file_not_loadable quiet_world (request "short") 0
             "/srv/short" (list_byte_of_string "#!/bin/sh") start
             eq_refl ltac:(discriminate) eq_refl ltac:(vm_compute; lia) eq_refl).
Defined.

(** With a call string and a requested package the environment is replaced
    by the captured one before the install: the search path at the end
    holds the installed directory and the captured path, and not the
    project-local directory that was found and prepended. C5 as stated
    fails here. *)
Lemma call_string_drops_the_local_directory :
  fst (localBinPath quiet_world (w_cwd quiet_world) start)
  = Resolved "/home/u/proj/node_modules/.bin"
  /\ fst (ensurePackages quiet_world (Some ["cowsay"]) (Cases.call_with_package "echo hi")
            (with_env {[ "PATH" := "/npm/bin:/usr/bin" ]} started))
     = Resolved {| summary := []; prefix := "/home/u/.npm/_npx/4242";
                   bin := "/home/u/.npm/_npx/4242/bin" |}
  /\ env (snd (npx quiet_world 5 (Cases.call_with_package "echo hi") start)) !! "PATH"
     = Some "/home/u/.npm/_npx/4242/bin:/npm/bin:/usr/bin"
  /\ proc_exitCode (snd (npx quiet_world 5 (Cases.call_with_package "echo hi") start))
     = None.
Proof. split; [| split; [| split]]; vm_compute; reflexivity. Qed.

Lemma installed_bins_lead_the_search_path_witness :
  env (snd (npx quiet_world 5 (request "foo") start)) !! "PATH"
  = Some ("/home/u/.npm/_npx/4242/bin" +:+ ":" +:+ "/home/u/proj/node_modules/.bin"
          +:+ ":" +:+ "/usr/bin")
  /\ env (snd (npx quiet_world 5 (Cases.call_with_package "echo hi") start)) !! "PATH"
     = Some ("/home/u/.npm/_npx/4242/bin" +:+ ":" +:+ "/npm/bin:/usr/bin").
Proof.
  split.
  - apply (installed_bins_lead_the_search_path quiet_world 5 (request "foo") start
             "/home/u/proj" VUndef None
             {| summary := []; prefix := "/home/u/.npm/_npx/4242";
                bin := "/home/u/.npm/_npx/4242/bin" |}).
    + reflexivity.
    + right. split; [reflexivity | eexists; reflexivity].
    + reflexivity.
    + vm_compute. reflexivity.
    + reflexivity.
    + vm_compute. reflexivity.
  - destruct (installed_bins_lead_the_search_path quiet_world 5
                (Cases.call_with_package "echo hi") start
                "/home/u/proj" VUndef (Some {[ "PATH" := "/npm/bin:/usr/bin" ]})
                {| summary := []; prefix := "/home/u/.npm/_npx/4242";
                   bin := "/home/u/.npm/_npx/4242/bin" |}) as (Hpath & _).
    + reflexivity.
    + left. reflexivity.
    + reflexivity.
    + vm_compute. reflexivity.
    + reflexivity.
    + vm_compute. reflexivity.
    + etransitivity; [exact Hpath | vm_compute; reflexivity].
Defined.

Lemma existing_path_lookup_witness :
  getExistingPath quiet_world "/srv/tool" (local_request "/srv/tool") start
  = (Resolved (VStr "/srv/tool"), start)
  /\ getExistingPath quiet_world "ls" (pinned_request "ls") start
     = (Resolved (VBool false), start)
  /\ getExistingPath quiet_world "ls" (request "ls") start
     = (Resolved (VStr "/usr/bin/ls"), start)
  /\ getExistingPath quiet_world "foo" (request "foo") start = (Resolved VUndef, start)
  /\ getExistingPath quiet_world "foo" (no_install_request "foo") start
     = (Rejected (set_exitCode 127 (not_found "foo")), start)
  /\ getExistingPath locked_world "foo" (request "foo") start
     = (Rejected access_denied, start).
Proof.
  split; [| split; [| split; [| split; [| split]]]].
  - apply (proj1 (existing_path_lookup quiet_world "/srv/tool" (local_request "/srv/tool") start)).
    reflexivity.
  - apply (proj1 (proj2 (existing_path_lookup quiet_world "ls" (pinned_request "ls") start)));
      reflexivity.
  - apply (proj1 (proj2 (proj2 (existing_path_lookup quiet_world "ls" (request "ls") start))
             eq_refl eq_refl)).
    reflexivity.
  - apply (proj1 (proj2 (proj2 (proj2 (existing_path_lookup quiet_world "foo" (request "foo") start))
             eq_refl eq_refl)) (not_found "foo"));
      [reflexivity | reflexivity | discriminate].
  - apply (proj1 (proj2 (proj2 (proj2 (proj2 (existing_path_lookup quiet_world "foo"
             (no_install_request "foo") start)) eq_refl eq_refl))) (not_found "foo"));
      reflexivity.
  - apply (proj2 (proj2 (proj2 (proj2 (proj2 (existing_path_lookup locked_world "foo"
             (request "foo") start)) eq_refl eq_refl))) access_denied);
      [reflexivity | discriminate].
Defined.

Lemma install_failure_exit_code_witness :
  exists s',
    pipeline (world (Rejected (child_failed 1 false)) (Resolved tt)) 5 (request "foo") started
    = (Resolved tt, s')
    /\ proc_exitCode s' = Some 1
    /\ err s' = err started ++ ["Install for foo failed with code 1"].
Proof.
  apply (proj2 (proj2 (proj2 (install_failure_exit_code
           (world (Rejected (child_failed 1 false)) (Resolved tt)) 5 (request "foo")
           started (VUndef, None) "/home/u/.npm" "/usr/bin/npm" (child_failed 1 false) 1
           eq_refl eq_refl eq_refl eq_refl eq_refl eq_refl eq_refl
           ltac:(discriminate))))).
Defined.

Lemma child_failure_outcome_witness :
  execCommand (world (Resolved None) (Rejected (child_failed 3 true))) 5
    (VStr "/usr/bin/ls") (request "ls") started
  = (Resolved tt,
     with_exitCode 3
       (with_call (EvRunCommand (VBool false))
          (with_call (EvFindNodeScript (VStr "/usr/bin/ls")) started)))
  /\ execCommand (world (Resolved None) (Rejected (child_failed 2 false))) 5
       (VStr "/usr/bin/ls") (request "ls") started
     = (Rejected (child_failed 2 false),
        with_call (EvRunCommand (VBool false))
          (with_call (EvFindNodeScript (VStr "/usr/bin/ls")) started)).
Proof.
  split.
  - apply (proj1 (child_failure_outcome
             (world (Resolved None) (Rejected (child_failed 3 true))) 5
             (VStr "/usr/bin/ls") (request "ls") started (VBool false)
             (with_call (EvFindNodeScript (VStr "/usr/bin/ls")) started)
             (child_failed 3 true) eq_refl eq_refl eq_refl) 3 eq_refl eq_refl
             ltac:(discriminate)).
  - apply (proj2 (child_failure_outcome
             (world (Resolved None) (Rejected (child_failed 2 false))) 5
             (VStr "/usr/bin/ls") (request "ls") started (VBool false)
             (with_call (EvFindNodeScript (VStr "/usr/bin/ls")) started)
             (child_failed 2 false) eq_refl eq_refl eq_refl) eq_refl).
Defined.

Lemma execution_strategy_witness :
  execCommand quiet_world 5 (VStr "/srv/script") (request "script") started
  = (Resolved tt,
     with_call (EvRunMain [VStr "/usr/bin/node"; VStr "/srv/script"])
       (with_argv [VStr "/usr/bin/node"; VStr "/srv/script"]
          (with_call EvYargsReset
             (with_call (EvFindNodeScript (VStr "/srv/script")) started))))
  /\ execCommand quiet_world 5 (VStr "/usr/bin/ls") (request "ls") started
     = (Resolved tt,
        with_call (EvRunCommand (VBool false))
          (with_call (EvFindNodeScript (VStr "/usr/bin/ls")) started))
  /\ execCommand (world (Resolved None) (Rejected (child_failed 3 true))) 5
       (VStr "/usr/bin/ls") (request "ls") started
     = (Resolved tt,
        with_exitCode 3
          (with_call (EvRunCommand (VBool false))
             (with_call (EvFindNodeScript (VStr "/usr/bin/ls")) started))).
Proof.
  split; [| split].
  - destruct (execution_strategy quiet_world 5 (VStr "/srv/script") (request "script")
                started (VStr "/srv/script")
                (with_call (EvFindNodeScript (VStr "/srv/script")) started)
                eq_refl) as (Hin & _).
    apply Hin. reflexivity.
  - destruct (execution_strategy quiet_world 5 (VStr "/usr/bin/ls") (request "ls")
                started (VBool false)
                (with_call (EvFindNodeScript (VStr "/usr/bin/ls")) started)
                eq_refl) as (_ & Hout & _).
    apply Hout. reflexivity.
  - destruct (execution_strategy (world (Resolved None) (Rejected (child_failed 3 true)))
                5 (VStr "/usr/bin/ls") (request "ls")
                started (VBool false)
                (with_call (EvFindNodeScript (VStr "/usr/bin/ls")) started)
                eq_refl) as (_ & Hout & _).
    apply Hout. reflexivity.
Defined.

(** * Further properties *)

(** ** The classifier, once more *)

(** The classifier on a path that is neither a request-local [.js] path
    nor a request-local directory. *)
Lemma findNodeScript_sniffed w opts fuel p n s :
  p <> "" ->
  fs_node w p = Some n ->
  isLocal opts && String.eqb (p_extname (path w) p) ".js" = false ->
  isLocal opts && isDirectory n = false ->
  findNodeScript w (S fuel) (VStr p) opts s
  = (if is_win32 w then ret VUndef else sniff w p)
      (with_call (EvFindNodeScript (VStr p)) s).
Proof.
  intros Hp Hnode Hjs Hdir. cbn [findNodeScript].
  unfold bind at 1. unfold log_call at 1, modify at 1.
  rewrite (truthy_VStr p Hp). cbn [negb].
  unfold bind at 1. unfold fs_stat. rewrite Hnode. unfold ret at 1.
  rewrite Hjs, Hdir. now destruct (is_win32 w).
Qed.

(** X1. Errors of the file system surface as they are: a path that does not
    exist rejects the classifier with the [ENOENT] of [fs.stat], before
    anything is opened; a directory that the request does not mark local
    is, on a POSIX-like platform, opened and read, and the [EISDIR] of the
    read is what rejects, with the handle closed again; and a path that is
    there and cannot be opened rejects with the error of the open. None
    becomes a "command not found". *)
Theorem classifier_passes_io_errors w opts fuel p s :
  p <> "" ->
  let s' := with_call (EvFindNodeScript (VStr p)) s in
  (fs_node w p = None ->
   findNodeScript w (S fuel) (VStr p) opts s
   = (Rejected (fs_error "ENOENT" "no such file or directory, stat" p), s')
   /\ code (fs_error "ENOENT" "no such file or directory, stat" p) = Some "ENOENT")
  /\ (fs_node w p = Some Directory -> isLocal opts = false ->
      w_platform w = PosixLike ->
      w_open_error w p = None -> w_close_error w p = None ->
      findNodeScript w (S fuel) (VStr p) opts s = (Rejected read_error, s')
      /\ fds s' = fds s)
  /\ (forall n e, fs_node w p = Some n -> isLocal opts = false ->
      w_platform w = PosixLike ->
      w_open_error w p = Some e ->
      findNodeScript w (S fuel) (VStr p) opts s = (Rejected e, s')).
Proof.
  intros Hp. cbv zeta. split; [| split].
  - intros Hnode. split; [| reflexivity]. cbn [findNodeScript].
    unfold bind at 1. unfold log_call at 1, modify at 1.
    rewrite (truthy_VStr p Hp). cbn [negb].
    unfold bind, fs_stat. now rewrite Hnode.
  - intros Hnode Hlocal Hplat Hopen Hclose. split; [| reflexivity].
    rewrite (findNodeScript_sniffed w opts fuel p Directory s Hp Hnode)
      by (now rewrite Hlocal).
    unfold is_win32. rewrite Hplat. rewrite sniff_outcome.
    now rewrite Hnode, Hopen, Hclose.
  - intros n e Hnode Hlocal Hplat Hopen.
    rewrite (findNodeScript_sniffed w opts fuel p n s Hp Hnode)
      by (now rewrite Hlocal).
    unfold is_win32. rewrite Hplat. rewrite sniff_outcome.
    now rewrite Hnode, Hopen.
Qed.

(** X2. Whatever the classifier resolves to and calls loadable is a path
    that exists, and is either a request-local path ending in [.js] or, on
    a POSIX-like platform, a regular file whose first twenty bytes are the
    shebang line; this holds through any depth of package directories. *)
Theorem classifier_sound w opts fuel :
  forall existing s v s',
  findNodeScript w fuel existing opts s = (Resolved v, s') ->
  truthy v = true ->
  exists q,
    v = VStr q
    /\ ((isLocal opts = true /\ p_extname (path w) q = ".js"
         /\ is_Some (fs_node w q))
        \/ (w_platform w = PosixLike
            /\ exists content, fs_node w q = Some (RegFile content)
                               /\ take 20 content = shebang_bytes)).
Proof.
  induction fuel as [| fuel IH]; intros existing s v s' Hrun Hv.
  - discriminate.
  - cbn [findNodeScript] in Hrun.
    unfold bind at 1 in Hrun. unfold log_call at 1, modify at 1 in Hrun.
    destruct (truthy existing) eqn:Hex; cbn [negb] in Hrun.
    2:{ injection Hrun as <- _. discriminate. }
    destruct existing as [| b | n | p |]; try discriminate.
    unfold bind at 1 in Hrun. unfold fs_stat in Hrun.
    destruct (fs_node w p) as [n |] eqn:Hnode; [| discriminate].
    unfold ret at 1 in Hrun.
    destruct (isLocal opts && String.eqb (p_extname (path w) p) ".js") eqn:Hjs.
    { injection Hrun as <- _. exists p. split; [reflexivity |]. left.
      apply andb_prop in Hjs as [Hl He]. apply String.eqb_eq in He.
      rewrite Hnode. eauto. }
    destruct (isLocal opts && isDirectory n) eqn:Hdir.
    { destruct (manifest_target w p) as [target |]; [| discriminate].
      apply bind_inv in Hrun as (script & s1 & Hrec & Hrest).
      destruct (truthy script) eqn:Hs; [| discriminate].
      injection Hrest as <- _. eapply IH; eauto. }
    destruct (is_win32 w) eqn:Hwin; cbn [negb] in Hrun.
    { injection Hrun as <- _. discriminate. }
    rewrite sniff_outcome, Hnode in Hrun.
    destruct (w_open_error w p); [discriminate |].
    destruct (w_close_error w p); [discriminate |].
    destruct n as [content |]; [| discriminate].
    destruct (w_read_error w p); [discriminate |].
    injection Hrun as <- _.
    destruct (decide (take 20 content = shebang_bytes)) as [Heq |]; [| discriminate].
    exists p. split; [reflexivity |]. right. split.
    + unfold is_win32 in Hwin. now destruct (w_platform w).
    + eauto.
Qed.



(** ** Descriptors *)

(** X5. A run leaks no file descriptor: however it ends, the table of open
    descriptors is the one it started with. *)
Theorem no_descriptor_leak w fuel argv s :
  fds (snd (npx w fuel argv s)) = fds s.
Proof.
  apply (npx_kept w same_fds); unfold same_fds; intros; try reflexivity.
  congruence.
Qed.

(** ** The installer, once more *)

Lemma bind_inv_rejected {A B} (m : M A) (f : A -> M B) s e s' :
  bind m f s = (Rejected e, s') ->
  m s = (Rejected e, s')
  \/ exists a s1, m s = (Resolved a, s1) /\ f a s1 = (Rejected e, s').
Proof.
  unfold bind. destruct (m s) as [[a | e0 |] s1]; intros H; try discriminate.
  - right. eauto.
  - left. injection H as -> ->. reflexivity.
Qed.

Lemma cacheDir_pure w opts s : snd (cacheDir w opts s) = s.
Proof. now rewrite (cacheDir_reads_env w opts s s eq_refl). Qed.

(** X6. The private install root is registered for removal at exit as soon
    as the cache directory is known, and stays registered however the
    cleaning and the install end; when the cache directory cannot be found,
    nothing is registered. *)
Theorem exit_hook_registered w specs opts s :
  exit_hooks (snd (ensurePackages w specs opts s))
  = match fst (cacheDir w opts s) with
    | Resolved cachedir => exit_hooks s ++ [fst (install_bins w cachedir)]
    | _ => exit_hooks s
    end.
Proof.
  unfold ensurePackages.
  set (s1 := with_call (EvEnsurePackages specs) s).
  assert (log_call (EvEnsurePackages specs) s = (Resolved tt, s1)) as H1
    by reflexivity.
  rewrite (bind_resolved _ _ _ _ _ H1).
  pose proof (cacheDir_reads_env w opts s s1 eq_refl) as H2.
  destruct (fst (cacheDir w opts s)) as [cachedir | e |].
  - rewrite (bind_resolved _ _ _ _ _ H2).
    destruct (install_bins w cachedir) as [pre bins]. cbn [fst].
    set (s2 := with_exit_hook pre s1).
    assert (modify (with_exit_hook pre) s1 = (Resolved tt, s2)) as H3 by reflexivity.
    rewrite (bind_resolved _ _ _ _ _ H3).
    match goal with
    | |- exit_hooks (snd (?rest s2)) = _ =>
        assert (keeps same_hooks rest) as Hrest
    end.
    { unfold rimraf, prepend_PATH, log_call.
      assert (forall a, same_hooks a a) by reflexivity.
      assert (forall a b c, same_hooks a b -> same_hooks b c -> same_hooks a c)
        by (unfold same_hooks; congruence).
      pose proof (installPackages_kept w same_hooks).
      chain ltac:(apply keeps_modify; intros; reflexivity). }
    rewrite (Hrest s2). reflexivity.
  - unfold bind. now rewrite H2.
  - unfold bind. now rewrite H2.
Qed.

Lemma entries_app a b : entries (a ++ b) = (entries a + entries b)%nat.
Proof. unfold entries. now rewrite List.filter_app, length_app. Qed.

Lemma entries_none post :
  Forall (fun ev => is_entry ev = false) post -> entries post = 0%nat.
Proof.
  unfold entries. induction 1 as [| ev post Hev _ IH]; [reflexivity |].
  cbn. now rewrite Hev.
Qed.

Lemma entries_notifiers pre :
  Forall (fun ev => is_notifier ev = true) pre -> entries pre = 0%nat.
Proof.
  intros H. apply entries_none. induction H as [| ev pre Hev _ IH]; constructor.
  - now destruct ev.
  - exact IH.
Qed.

(** A chain that starts by logging [ev] shows [ev] first, and after it
    what the rest of the chain logs. *)
Lemma log_first_then {B} P ev (k : unit -> M B) s :
  (forall u, keeps (grows P) (k u)) ->
  exists post,
    calls (snd (bind (log_call ev) k s)) = calls s ++ ev :: post /\ Forall P post.
Proof.
  intros Hk. destruct (Hk tt (with_call ev s)) as (post & E & F).
  exists post. split; [| exact F]. unfold bind, log_call, modify. rewrite E. cbn.
  now rewrite <- app_assoc.
Qed.

(** Solves "the log grows by calls other than the installer's entry". *)
Ltac other_growth w :=
  pose proof (grows_refl (fun ev => is_entry ev = false));
  pose proof (grows_trans (fun ev => is_entry ev = false));
  pose proof (cacheDir_grows w (fun ev => is_entry ev = false) (fun _ H => H));
  pose proof (rimraf_grows w (fun ev => is_entry ev = false) (fun _ H => H));
  pose proof (installPackages_grows w (fun ev => is_entry ev = false) (fun _ H => H));
  pose proof (commandLocator_grows w (fun ev => is_entry ev = false) (fun _ H => H));
  pose proof (execCommand_grows w (fun ev => is_entry ev = false) (fun _ H => H));
  unfold prepend_PATH, console_error;
  chain ltac:(apply keeps_modify; intros; apply grows_same; reflexivity).

(** X7. From the install decision on, the installer is entered exactly once
    when the decision is to install and never otherwise; a whole run enters
    it at most once. *)
Theorem installer_entered_once w fuel argv :
  (forall existing s,
     entries (calls (snd ((existing' <- installStage w existing argv ;;
                           execCommand w fuel existing' argv) s)))
     = (entries (calls s) + (if must_install existing argv then 1 else 0))%nat)
  /\ (forall s,
        (entries (calls (snd (npx w fuel argv s))) <= entries (calls s) + 1)%nat).
Proof.
  assert (forall existing s,
     entries (calls (snd ((existing' <- installStage w existing argv ;;
                           execCommand w fuel existing' argv) s)))
     = (entries (calls s) + (if must_install existing argv then 1 else 0))%nat)
    as Hstage.
  { intros existing s. unfold installStage.
    destruct (must_install existing argv) eqn:Hmust.
    - set (notify := match npxPkg argv with
                     | Some pkg => when (str_truthy (Some pkg)) (log_call (EvUpdateNotifier pkg))
                     | None => ret tt
                     end).
      assert (exists pre, notify s = (Resolved tt, snd (notify s))
                          /\ calls (snd (notify s)) = calls s ++ pre
                          /\ Forall (fun ev => is_notifier ev = true) pre)
        as (pre & Hn & Epre & Fpre).
      { subst notify. destruct (npxPkg argv) as [pkg |].
        - destruct (str_truthy (Some pkg)); simpl.
          + exists [EvUpdateNotifier pkg]. repeat split. now repeat constructor.
          + exists []. repeat split; [now rewrite app_nil_r | constructor].
        - exists []. repeat split; [now rewrite app_nil_r | constructor]. }
      rewrite bind_assoc, (bind_resolved _ _ _ _ _ Hn), bind_assoc.
      unfold ensurePackages. rewrite bind_assoc.
      match goal with
      | |- context [bind (log_call ?entry) ?k ?s1] =>
          destruct (log_first_then (fun ev => is_entry ev = false) entry k s1)
            as (post & Epost & Fpost)
      end.
      + intros _. other_growth w.
      + rewrite Epost, Epre, !entries_app. cbn [app].
        change (EvEnsurePackages (package argv) :: post)
          with ([EvEnsurePackages (package argv)] ++ post).
        rewrite entries_app, (entries_notifiers pre Fpre), (entries_none post Fpost).
        cbn. lia.
    - rewrite (bind_resolved (ret existing) _ s existing s eq_refl).
      destruct (execCommand_grows w (fun ev => is_entry ev = false) (fun _ H => H)
                  fuel existing argv s) as (post & Epost & Fpost).
      rewrite Epost, entries_app, (entries_none post Fpost). lia. }
  split; [exact Hstage |].
  assert (forall s,
    (entries (calls (snd (pipeline w fuel argv s))) <= entries (calls s) + 1)%nat)
    as Hpipe.
  { intros s. unfold pipeline, catch, then2.
    assert ((entries (calls (snd ((args <- resolveStage w argv ;;
                                   afterResolve w fuel argv args) s)))
             <= entries (calls s) + 1)%nat) as Hchain.
    { unfold bind at 1. pose proof (resolveStage_pure w argv s) as Hpure.
      destruct (resolveStage w argv s) as [[args | e |] s1]; cbn [snd] in *;
        subst s1; try lia.
      unfold afterResolve.
      assert (exists s2, (match snd args with
                          | Some e => modify (with_env e)
                          | None => ret tt
                          end) s = (Resolved tt, s2) /\ calls s2 = calls s)
        as (s2 & Henv & Hcalls) by (destruct (snd args); eexists; split; reflexivity).
      rewrite (bind_resolved _ _ _ _ _ Henv), Hstage, Hcalls.
      destruct (must_install (fst args) argv); lia. }
    destruct ((args <- resolveStage w argv ;; afterResolve w fuel argv args) s)
      as [[[] | e |] s1]; cbn [snd] in *; try exact Hchain.
    rewrite on_failure_state. destruct (q argv); exact Hchain. }
  intros s. unfold npx.
  destruct (shell_auto_fallback argv) as [shell |].
  - unfold bind, gets.
    destruct (w_auto_fallback w shell (env s !! "SHELL") argv) as [fb |];
      [destruct (str_truthy (Some fb)) |];
      match goal with
      | |- (entries (calls ?x) <= _)%nat => change (calls x) with (calls s)
      end; lia.
  - destruct (negb (str_truthy (call argv))
              && (negb (str_truthy (command argv))
                  || negb (bool_decide (is_Some (package argv))))).
    + destruct (q argv);
        match goal with
        | |- (entries (calls ?x) <= _)%nat => change (calls x) with (calls s)
        end; lia.
    + unfold localBinPath, bind at 1 2, settle.
      destruct (w_getPrefix w (w_cwd w)) as [prefix0 | e |]; cbn [snd]; try lia.
      unfold ret at 1.
      set (local := p_join (path w) [prefix0; "node_modules"; ".bin"]).
      assert (exists s1, when (str_truthy (Some local)) (prepend_PATH w local) s
                         = (Resolved tt, s1) /\ calls s1 = calls s)
        as (s1 & Hstep & Hcalls)
        by (destruct (str_truthy (Some local)); eexists; split; reflexivity).
      rewrite (bind_resolved _ _ _ _ _ Hstep). rewrite <- Hcalls. apply Hpipe.
Qed.

(** ** How a run ends *)

(** X8. Once the project-local directory is known, a run never rejects:
    every failure ends in the final handler. The promise that [npx] returns
    can only reject with the rejection of the prefix lookup, and then
    nothing has been written. *)
Theorem run_rejects_only_without_prefix w fuel argv :
  (forall s e, fst (pipeline w fuel argv s) <> Rejected e)
  /\ (forall s e s',
        npx w fuel argv s = (Rejected e, s') ->
        w_getPrefix w (w_cwd w) = Rejected e /\ s' = s).
Proof.
  assert (forall s e, fst (pipeline w fuel argv s) <> Rejected e) as Hpipe.
  { intros s e. unfold pipeline, catch, then2.
    destruct ((args <- resolveStage w argv ;; afterResolve w fuel argv args) s)
      as [[[] | e0 |] s1]; cbn; try discriminate.
    rewrite on_failure_state. discriminate. }
  split; [exact Hpipe |].
  intros s e s'. unfold npx.
  destruct (shell_auto_fallback argv) as [shell |].
  - unfold bind, gets.
    destruct (w_auto_fallback w shell (env s !! "SHELL") argv) as [fb |];
      [destruct (str_truthy (Some fb)) |]; discriminate.
  - destruct (negb (str_truthy (call argv))
              && (negb (str_truthy (command argv))
                  || negb (bool_decide (is_Some (package argv))))).
    + destruct (q argv); discriminate.
    + unfold localBinPath, bind at 1 2, settle.
      destruct (w_getPrefix w (w_cwd w)) as [prefix0 | e0 |]; try discriminate.
      * unfold ret at 1. intros H. exfalso.
        set (local := p_join (path w) [prefix0; "node_modules"; ".bin"]) in H.
        assert (exists s1, when (str_truthy (Some local)) (prepend_PATH w local) s
                           = (Resolved tt, s1)) as (s1 & Hstep)
          by (destruct (str_truthy (Some local)); eexists; reflexivity).
        rewrite (bind_resolved _ _ _ _ _ Hstep) in H.
        apply (Hpipe s1 e). now rewrite H.
      * intros H. injection H as -> ->. split; reflexivity.
Qed.

(** X9. With installation disabled, a command that is not on the search path
    ends the run at once: exit code 127, the lookup's message on the error
    stream unless the request is quiet, and nothing installed, classified
    or executed. *)
Theorem missing_command_without_install w fuel argv cmd e s :
  command argv = Some cmd ->
  cmd <> "" ->
  str_truthy (call argv) = false ->
  isLocal argv = false ->
  cmdHadVersion argv || packageRequested argv || ignoreExisting argv = false ->
  install argv = Some false ->
  w_which w (env s !! "PATH") cmd = Rejected e ->
  code e = Some "ENOENT" ->
  pipeline w fuel argv s
  = (Resolved tt, with_exitCode 127 (if q argv then s else with_err (message e) s))
  /\ calls (snd (pipeline w fuel argv s)) = calls s
  /\ proc_exitCode (snd (pipeline w fuel argv s)) = Some 127.
Proof.
  intros Hcmd Hne Hcall Hlocal Hskip Hinst Hwhich Hcode.
  assert (pipeline w fuel argv s
          = (Resolved tt, with_exitCode 127 (if q argv then s else with_err (message e) s)))
    as Hrun.
  { unfold pipeline.
    assert (resolveStage w argv s = (Rejected (set_exitCode 127 e), s)) as Hres.
    { unfold resolveStage, promise_all2. rewrite Hcmd, Hcall.
      replace (str_truthy (Some cmd)) with true
        by (symmetry; cbn; now destruct (String.eqb_spec cmd "")).
      unfold getExistingPath. rewrite Hlocal, Hskip.
      unfold catch, then2, bind, which. rewrite Hwhich.
      apply code_is_spec in Hcode. now rewrite Hcode, Hinst. }
    rewrite (catch_rejected _ _ _ _ _ (bind_rejected _ _ _ _ _ Hres)).
    rewrite on_failure_state. reflexivity. }
  rewrite Hrun. repeat split; now destruct (q argv).
Qed.

(** X10. A request with neither a call string nor both a command and a
    package runs nothing: exit code 1, the complaint and the help text on
    the error stream unless the request is quiet. A request for the shell
    fallback runs nothing either: the fallback text is printed, or the exit
    code is 1 when there is none. *)
Theorem nothing_runs_without_a_command w fuel argv s :
  (shell_auto_fallback argv = None ->
   str_truthy (call argv) = false ->
   str_truthy (command argv) = false \/ package argv = None ->
   npx w fuel argv s
   = (Resolved tt,
      with_exitCode 1
        (if q argv then s
         else with_err (w_help w) (with_err must_supply_command s))))
  /\ (forall shell, shell_auto_fallback argv = Some shell ->
      calls (snd (npx w fuel argv s)) = calls s
      /\ env (snd (npx w fuel argv s)) = env s
      /\ match w_auto_fallback w shell (env s !! "SHELL") argv with
         | Some text =>
             if str_truthy (Some text)
             then npx w fuel argv s = (Resolved tt, with_out text s)
             else npx w fuel argv s = (Resolved tt, with_exitCode 1 s)
         | None => npx w fuel argv s = (Resolved tt, with_exitCode 1 s)
         end).
Proof.
  split.
  - intros Hsh Hcall Hmissing. unfold npx. rewrite Hsh, Hcall.
    replace (negb (str_truthy (command argv))
             || negb (bool_decide (is_Some (package argv)))) with true.
    + now destruct (q argv).
    + symmetry. destruct Hmissing as [-> | ->]; [reflexivity |].
      cbn. apply orb_true_r.
  - intros shell Hsh. unfold npx. rewrite Hsh. unfold bind, gets.
    destruct (w_auto_fallback w shell (env s !! "SHELL") argv) as [text |];
      [destruct (str_truthy (Some text)) |]; repeat split.
Qed.

(** ** Installing *)

(** X11. An install whose output is empty, missing or not JSON still
    succeeds: the outcome has an empty summary, the private root and its
    binary directory, and the binary directory leads the search path. *)
Theorem install_summary_is_optional w specs opts s cachedir npmPath stdout :
  fst (cacheDir w opts s) = Resolved cachedir ->
  w_rimraf w (snd (install_bins w cachedir)) = Resolved tt ->
  w_which w (env s !! "PATH") (npm opts) = Resolved npmPath ->
  w_spawn w npmPath (buildArgs specs (fst (install_bins w cachedir)) opts) (q opts)
  = Resolved stdout ->
  str_truthy stdout = false
  \/ (exists text, stdout = Some text /\ w_JSON_parse w text = None) ->
  exists s',
    ensurePackages w specs opts s
    = (Resolved {| summary := []; prefix := fst (install_bins w cachedir);
                   bin := snd (install_bins w cachedir) |}, s')
    /\ env s' !! "PATH"
       = Some (snd (install_bins w cachedir) +:+ PATH_SEP w +:+ tmpl (env s !! "PATH"))
    /\ exit_hooks s' = exit_hooks s ++ [fst (install_bins w cachedir)].
Proof.
  intros Hcache Hrim Hwhich Hspawn Hout. unfold ensurePackages.
  set (s1 := with_call (EvEnsurePackages specs) s).
  assert (log_call (EvEnsurePackages specs) s = (Resolved tt, s1)) as H1
    by reflexivity.
  rewrite (bind_resolved _ _ _ _ _ H1).
  assert (cacheDir w opts s1 = (Resolved cachedir, s1)) as H2.
  { rewrite (cacheDir_reads_env w opts s s1) by reflexivity. now rewrite Hcache. }
  rewrite (bind_resolved _ _ _ _ _ H2).
  destruct (install_bins w cachedir) as [pre bins] eqn:Ebins.
  cbn [fst snd] in *.
  set (s2 := with_exit_hook pre s1).
  assert (modify (with_exit_hook pre) s1 = (Resolved tt, s2)) as H3 by reflexivity.
  rewrite (bind_resolved _ _ _ _ _ H3).
  rewrite (bind_resolved _ _ _ _ _ (rimraf_resolved w bins s2 Hrim)).
  set (s3 := with_call (EvRimraf bins) s2).
  assert (installPackages w specs pre opts s3
          = (Resolved None, with_call (EvSpawnInstall npmPath (buildArgs specs pre opts)) s3))
    as H4.
  { unfold installPackages. unfold bind at 1. unfold which.
    change (env s3) with (env s). rewrite Hwhich.
    unfold then2, child_spawn, bind, log_call, modify, settle. rewrite Hspawn.
    destruct Hout as [Hempty | (text & -> & Hparse)].
    - destruct stdout as [text |]; [| reflexivity]. now rewrite Hempty.
    - rewrite Hparse. now destruct (str_truthy (Some text)). }
  rewrite (bind_resolved _ _ _ _ _ H4).
  eexists. split; [reflexivity |]. split.
  - cbn. apply lookup_insert_eq.
  - reflexivity.
Qed.

(** X12. What [installPackages] rethrows untouched: when [npm] is not on the
    search path the lookup's rejection is the result and nothing is
    spawned; when the subprocess is rejected without a non-zero exit code
    the rejection keeps its message. *)
Theorem install_errors_pass_through w specs prefix opts s :
  (forall e, w_which w (env s !! "PATH") (npm opts) = Rejected e ->
     installPackages w specs prefix opts s = (Rejected e, s))
  /\ (forall npmPath e,
        w_which w (env s !! "PATH") (npm opts) = Resolved npmPath ->
        w_spawn w npmPath (buildArgs specs prefix opts) (q opts) = Rejected e ->
        exitCode e = None \/ exitCode e = Some 0 ->
        installPackages w specs prefix opts s
        = (Rejected e, with_call (EvSpawnInstall npmPath (buildArgs specs prefix opts)) s)).
Proof.
  split.
  - intros e Hwhich. unfold installPackages, bind, which. now rewrite Hwhich.
  - intros npmPath e Hwhich Hspawn Hcode. unfold installPackages.
    unfold bind at 1. unfold which. rewrite Hwhich.
    unfold then2, child_spawn, bind, log_call, modify, settle. cbn [env with_call].
    rewrite Hspawn. unfold exitCode_truthy.
    destruct Hcode as [-> | ->]; reflexivity.
Qed.

(** A summary that [installPackages] resolves to was parsed from the
    output of the subprocess. *)
Lemma installPackages_summary w specs prefix opts s j s' :
  installPackages w specs prefix opts s = (Resolved (Some j), s') ->
  exists npmPath text,
    w_which w (env s !! "PATH") (npm opts) = Resolved npmPath
    /\ w_spawn w npmPath (buildArgs specs prefix opts) (q opts) = Resolved (Some text)
    /\ w_JSON_parse w text = Some j.
Proof.
  unfold installPackages, bind at 1, which. cbv zeta. intros H.
  destruct (w_which w (env s !! "PATH") (npm opts)) as [npmPath | e |] eqn:Hwhich;
    try discriminate.
  unfold then2, child_spawn, bind, log_call, modify, settle in H.
  destruct (w_spawn w npmPath (buildArgs specs prefix opts) (q opts))
    as [stdout | e |] eqn:Hspawn; try discriminate.
  - destruct stdout as [text |]; [| discriminate].
    destruct (str_truthy (Some text)); [| discriminate].
    unfold ret in H. injection H as Hj _. exists npmPath, text.
    split; [reflexivity | split; [exact Hspawn | exact Hj]].
  - destruct (exitCode e); [destruct (exitCode_truthy e) |]; discriminate.
Qed.

(** X13. An installer that rejects has not touched the environment, with
    one exception: when the output of the install subprocess parses to a
    bare number, string or [true], the search path has been extended by
    the time the outcome cannot be completed. The search path is otherwise
    only extended by an install that succeeded. *)
Theorem failed_install_keeps_environment w specs opts s e s' :
  ensurePackages w specs opts s = (Rejected e, s') ->
  env s' = env s
  \/ exists cachedir npmPath text j,
       fst (cacheDir w opts s) = Resolved cachedir
       /\ w_which w (env s !! "PATH") (npm opts) = Resolved npmPath
       /\ w_spawn w npmPath (buildArgs specs (fst (install_bins w cachedir)) opts)
            (q opts)
          = Resolved (Some text)
       /\ w_JSON_parse w text = Some j
       /\ primitive_truthy j = true
       /\ env s' !! "PATH"
          = Some (snd (install_bins w cachedir) +:+ PATH_SEP w
                  +:+ tmpl (env s !! "PATH")).
Proof.
  unfold ensurePackages. intros H.
  apply bind_inv_rejected in H as [H | ([] & s1 & H1 & H)]; [discriminate |].
  assert (env s1 = env s) as E1 by (injection H1 as <-; reflexivity).
  apply bind_inv_rejected in H as [H | (cachedir & s2 & H2 & H)].
  { left. pose proof (cacheDir_env w opts s1) as E. rewrite H in E.
    unfold same_env in E. cbn in E. congruence. }
  assert (env s2 = env s) as E2.
  { pose proof (cacheDir_env w opts s1) as E. rewrite H2 in E.
    unfold same_env in E. cbn in E. congruence. }
  assert (fst (cacheDir w opts s) = Resolved cachedir) as Hcache.
  { pose proof (cacheDir_reads_env w opts s s1 (eq_sym E1)) as E.
    rewrite H2 in E. now injection E as <- _. }
  destruct (install_bins w cachedir) as [pre bins] eqn:Ebins.
  apply bind_inv_rejected in H as [H | ([] & s3 & H3 & H)]; [discriminate |].
  assert (env s3 = env s) as E3 by (injection H3 as <-; exact E2).
  apply bind_inv_rejected in H as [H | ([] & s4 & H4 & H)].
  { left. pose proof (rimraf_env w bins s3) as E. rewrite H in E.
    unfold same_env in E. cbn in E. congruence. }
  assert (env s4 = env s) as E4.
  { pose proof (rimraf_env w bins s3) as E. rewrite H4 in E.
    unfold same_env in E. cbn in E. congruence. }
  apply bind_inv_rejected in H as [H | (info & s5 & H5 & H)].
  { left. pose proof (installPackages_env w specs pre opts s4) as E. rewrite H in E.
    unfold same_env in E. cbn in E. congruence. }
  assert (env s5 = env s) as E5.
  { pose proof (installPackages_env w specs pre opts s4) as E. rewrite H5 in E.
    unfold same_env in E. cbn in E. congruence. }
  apply bind_inv_rejected in H as [H | ([] & s6 & H6 & H)]; [discriminate |].
  right.
  destruct info as [j |]; [| discriminate].
  destruct (installPackages_summary w specs pre opts s4 j s5 H5)
    as (npmPath & text & Hwhich & Hspawn & Ht).
  rewrite E4 in Hwhich.
  exists cachedir, npmPath, text, j.
  assert (s' = s6 /\ primitive_truthy j = true) as [-> Hprim].
  { destruct j as [| b | n | t | items | fields]; cbn in H |- *;
      try discriminate;
      match type of H with
      | context [if ?c then _ else _] => destruct c; [| discriminate]
      end; now injection H as _ <-. }
  pose proof (PATH_after_prepend w bins s5) as HP. rewrite H6 in HP.
  cbn [snd] in HP. rewrite Ebins. cbn [fst snd].
  repeat split; try assumption. now rewrite HP, E5.
Qed.

(** ** Locating the command *)

Lemma array_get_entry inherited arr key name :
  ArrayKey.get inherited arr key = VStr name -> In name arr.
Proof.
  unfold ArrayKey.get. destruct (ArrayKey.index key) as [i |].
  - destruct (i <? N.of_nat (length arr))%N; [| discriminate].
    destruct (nth_error arr (N.to_nat i)) as [x |] eqn:E; [| discriminate].
    intros H. injection H as <-. eapply nth_error_In, E.
  - destruct (String.eqb key "length"); [discriminate |].
    destruct (inherited key); discriminate.
Qed.

Lemma resolve_is_absolute cwd args :
  Path.isAbsolute cwd = true -> Path.isAbsolute (Path.resolve cwd args) = true.
Proof.
  intros Hcwd. unfold Path.resolve.
  set (step := fun a acc : string =>
                 if Path.isAbsolute acc then acc
                 else if String.eqb a "" then acc else a +:+ "/" +:+ acc).
  assert (Path.isAbsolute (fold_right step "" (cwd :: args)) = true) as Habs.
  { cbn [fold_right]. unfold step at 1.
    destruct (Path.isAbsolute (fold_right step "" args)) eqn:E; [exact E |].
    destruct cwd as [| a rest]; [discriminate |]. exact Hcwd. }
  rewrite Habs. reflexivity.
Qed.

(** X14. The locator never makes up a name: a path it resolves to is the
    binary directory joined with one of the listed entries, and on a
    POSIX-like platform with an absolute working directory it is an
    absolute path. An empty listing is rejected. *)
Theorem locator_returns_a_listed_entry w command results_bin bins s v s' :
  pick_bin w command results_bin bins s = (Resolved v, s') ->
  s' = s
  /\ bins <> []
  /\ (exists name, In name bins /\ v = VStr (p_resolve (path w) [results_bin; name]))
  /\ (w_platform w = PosixLike -> Path.isAbsolute (w_cwd w) = true ->
      exists p, v = VStr p /\ Path.isAbsolute p = true).
Proof.
  unfold pick_bin. intros H.
  destruct (command_error w command); [discriminate |].
  set (key := tmpl (find (command_test w command) bins)) in H.
  assert (exists name, In name bins
                       /\ v = VStr (p_resolve (path w) [results_bin; name])
                       /\ s' = s) as (name & Hin & -> & ->).
  { unfold js_or in H.
    destruct (ArrayKey.get (w_array_inherits w) bins key) as [| b | n | x |] eqn:Hget;
      cbn [truthy] in H.
    - destruct bins as [| b0 rest]; [discriminate |].
      injection H as <- <-. exists b0. repeat split. now left.
    - destruct b; [discriminate |].
      destruct bins as [| b0 rest]; [discriminate |].
      injection H as <- <-. exists b0. repeat split. now left.
    - destruct (negb (n =? 0)); [discriminate |].
      destruct bins as [| b0 rest]; [discriminate |].
      injection H as <- <-. exists b0. repeat split. now left.
    - apply array_get_entry in Hget.
      destruct (negb (String.eqb x "")).
      + injection H as <- <-. exists x. repeat split. exact Hget.
      + destruct bins as [| b0 rest]; [discriminate |].
        injection H as <- <-. exists b0. repeat split. now left.
    - discriminate. }
  repeat split.
  - intros ->. contradiction.
  - exists name. split; [exact Hin | reflexivity].
  - intros Hplat Hcwd. eexists. split; [reflexivity |].
    unfold path. rewrite Hplat. cbn [p_resolve posix_path].
    apply resolve_is_absolute, Hcwd.
Qed.

(** X15. How the listing can fail: a binary directory that does not exist
    ([ENOENT]) becomes "command not found" naming the requested command,
    an error without exit code; any other error of the listing is rethrown
    as it is. *)
Theorem locator_failures w command results s e :
  w_readdir w (bin results) = Rejected e ->
  let s' := with_call (EvReaddir (bin results)) s in
  (code e = Some "ENOENT" ->
   commandLocator w command results s
   = (Rejected (new_Error ("command not found: " +:+ command)), s')
   /\ exitCode_or_1 (new_Error ("command not found: " +:+ command)) = 1)
  /\ (code e <> Some "ENOENT" ->
      commandLocator w command results s = (Rejected e, s')).
Proof.
  intros Hdir. cbv zeta.
  unfold commandLocator, then2, fs_readdir, bind, log_call, modify, settle.
  rewrite Hdir. split.
  - intros Hcode. apply code_is_spec in Hcode. now rewrite Hcode.
  - intros Hcode. destruct (code_is "ENOENT" e) eqn:E; [| reflexivity].
    apply code_is_spec in E. contradiction.
Qed.

(** ** The environment of the command *)

Lemma append_not_empty (a b : string) : b <> "" -> a +:+ b <> "".
Proof. intros Hb. destruct a; [exact Hb | discriminate]. Qed.

Lemma join_not_empty parts : Path.join parts <> "".
Proof.
  unfold Path.join.
  destruct (filter (fun p => negb (String.eqb p "")) parts) as [| p ps];
    [discriminate |].
  unfold Path.normalize.
  destruct (String.eqb (String.concat "/" (p :: ps)) ""); [discriminate |].
  set (abs := Path.isAbsolute (String.concat "/" (p :: ps))).
  set (n := Path.normalizeString (String.concat "/" (p :: ps)) (negb abs)).
  destruct abs; [discriminate |]. cbn [negb andb].
  destruct (String.eqb_spec n "") as [-> | Hn].
  - cbn. destruct (Path.ends_with_slash _); discriminate.
  - rewrite andb_true_r. cbn [negb].
    replace (String.eqb n "") with false
      by (symmetry; now apply String.eqb_neq).
    cbn [negb andb].
    destruct (Path.ends_with_slash _); [| exact Hn].
    apply append_not_empty. discriminate.
Qed.

(** X16. On a POSIX-like platform the project-local directory is never the
    empty path, whatever the prefix is, so the guard on it always holds:
    once the prefix is found, the run goes on with the directory in front
    of the search path. *)
Theorem local_directory_always_leads w fuel argv prefix0 s :
  w_platform w = PosixLike ->
  shell_auto_fallback argv = None ->
  str_truthy (call argv) = true
  \/ (str_truthy (command argv) = true /\ is_Some (package argv)) ->
  w_getPrefix w (w_cwd w) = Resolved prefix0 ->
  let local := Path.join [prefix0; "node_modules"; ".bin"] in
  str_truthy (Some local) = true
  /\ npx w fuel argv s
     = pipeline w fuel argv
         (with_env (<["PATH" := local +:+ ":" +:+ tmpl (env s !! "PATH")]> (env s)) s).
Proof.
  intros Hplat Hsh Hguard Hprefix. cbv zeta.
  assert (str_truthy (Some (Path.join [prefix0; "node_modules"; ".bin"])) = true)
    as Hlocal.
  { cbn [str_truthy]. pose proof (join_not_empty [prefix0; "node_modules"; ".bin"]).
    now destruct (String.eqb_spec (Path.join [prefix0; "node_modules"; ".bin"]) ""). }
  split; [exact Hlocal |].
  unfold npx. rewrite Hsh.
  replace (negb (str_truthy (call argv))
           && (negb (str_truthy (command argv))
               || negb (bool_decide (is_Some (package argv))))) with false.
  - unfold localBinPath, bind at 1 2, settle. rewrite Hprefix. unfold ret at 1.
    unfold path. rewrite Hplat. cbn [p_join posix_path].
    rewrite Hlocal. cbn [when]. unfold bind, prepend_PATH, modify.
    unfold PATH_SEP, is_win32. rewrite Hplat. reflexivity.
  - symmetry. destruct Hguard as [-> | [-> Hpkg]]; [reflexivity |].
    rewrite bool_decide_true by exact Hpkg. cbn. apply andb_false_r.
Qed.

(** X17. With a call string and no explicit package, the command runs in the
    environment that [npm run env] reported and in no other: the captured
    environment replaces the process's, the installer is skipped, and the
    run ends with that environment, the earlier prefix of the search path
    included only if [npm] reported it. *)
Theorem call_string_runs_in_captured_environment w fuel argv s existing captured :
  str_truthy (call argv) = true ->
  packageRequested argv = false ->
  fst (resolveStage w argv s) = Resolved (existing, Some captured) ->
  env (snd (pipeline w fuel argv s)) = captured
  /\ entries (calls (snd (pipeline w fuel argv s))) = entries (calls s).
Proof.
  intros Hcall Hpkg Hres.
  assert (resolveStage w argv s = (Resolved (existing, Some captured), s)) as Hres'.
  { pose proof (resolveStage_pure w argv s) as Hpure.
    destruct (resolveStage w argv s) as [r st]. cbn in Hres, Hpure. now subst. }
  assert (must_install existing argv = false) as Hno.
  { unfold must_install. rewrite Hcall, Hpkg. now destruct (truthy existing). }
  unfold pipeline, catch, then2.
  rewrite (bind_resolved _ _ _ _ _ Hres'). unfold afterResolve. cbn [fst snd].
  set (s1 := with_env captured s).
  assert (modify (with_env captured) s = (Resolved tt, s1)) as Hstep by reflexivity.
  rewrite (bind_resolved _ _ _ _ _ Hstep).
  unfold installStage. rewrite Hno.
  rewrite (bind_resolved (ret existing) _ s1 existing s1 eq_refl).
  pose proof (execCommand_env_kept w fuel existing argv s1) as Henv.
  destruct (execCommand_grows w (fun ev => is_entry ev = false) (fun _ H => H)
              fuel existing argv s1) as (post & Epost & Fpost).
  assert (calls s1 = calls s) as Hs1 by reflexivity.
  destruct (execCommand w fuel existing argv s1) as [[[] | e |] s2];
    cbn [fst snd] in *; rewrite ?on_failure_state; unfold ret, throw; cbn [fst snd].
  - split; [exact Henv |].
    rewrite Epost, entries_app, (entries_none post Fpost), Hs1. lia.
  - split; [destruct (q argv); exact Henv |].
    replace (calls (with_exitCode (exitCode_or_1 e)
                      (if q argv then s2 else with_err (message e) s2)))
      with (calls s2) by (destruct (q argv); reflexivity).
    rewrite Epost, entries_app, (entries_none post Fpost), Hs1. lia.
  - split; [exact Henv |].
    rewrite Epost, entries_app, (entries_none post Fpost), Hs1. lia.
Qed.

(** ** The exit code *)

Lemma failure_code_refl s : failure_code s s.
Proof. now left. Qed.

Lemma failure_code_trans a b c :
  failure_code a b -> failure_code b c -> failure_code a c.
Proof.
  unfold failure_code. intros [Hab | (x & Hx & Hnz)] [Hbc | Hbc].
  - left. congruence.
  - now right.
  - right. exists x. split; [congruence | exact Hnz].
  - now right.
Qed.

Lemma failure_code_set c s : c <> 0 -> failure_code s (with_exitCode c s).
Proof. intros Hc. right. exists c. split; [reflexivity | exact Hc]. Qed.

Lemma exitCode_or_1_nonzero e : exitCode_or_1 e <> 0.
Proof.
  unfold exitCode_or_1. destruct (exitCode e) as [c |]; [| discriminate].
  destruct (Z.eqb_spec c 0); [discriminate | assumption].
Qed.

Lemma failure_code_other (f : State -> State) s :
  proc_exitCode (f s) = proc_exitCode s -> failure_code s (f s).
Proof. intros H. now left. Qed.

Section ExitCode.

Variable w : World.

Ltac other_writes :=
  pose proof failure_code_refl; pose proof failure_code_trans;
  chain ltac:(apply keeps_modify; intros; left; reflexivity).

Lemma on_failure_exit argv e : keeps failure_code (on_failure argv e).
Proof.
  intros s. rewrite on_failure_state. cbn [snd].
  right. exists (exitCode_or_1 e). split; [reflexivity | apply exitCode_or_1_nonzero].
Qed.

Lemma child_handler_exit (e : error) :
  keeps failure_code
    (if isOperational e && exitCode_truthy e
     then set_process_exitCode (default 0 (exitCode e))
     else throw e).
Proof.
  pose proof (keeps_throw failure_code failure_code_refl (A := unit) e) as Hthrow.
  destruct (isOperational e); cbn [andb]; [| exact Hthrow].
  unfold exitCode_truthy. destruct (exitCode e) as [c |]; [| exact Hthrow].
  destruct (Z.eqb_spec c 0); cbn [negb]; [exact Hthrow |].
  intros s. apply failure_code_set. assumption.
Qed.

Lemma execCommand_exit fuel existing argv :
  keeps failure_code (execCommand w fuel existing argv).
Proof.
  unfold execCommand.
  apply (keeps_bind failure_code failure_code_trans).
  - exact (findNodeScript_kept w failure_code failure_code_refl failure_code_trans
             (fun ev s => failure_code_other (with_call ev) s eq_refl)
             fuel existing argv).
  - intros script. apply (keeps_bind failure_code failure_code_trans);
      [apply (keeps_gets failure_code failure_code_refl) |].
    intros [|].
    + unfold log_call. other_writes.
    + apply (keeps_catch failure_code failure_code_refl failure_code_trans);
        [| apply child_handler_exit].
      unfold log_call. other_writes.
Qed.

Lemma pipeline_exit fuel argv : keeps failure_code (pipeline w fuel argv).
Proof.
  unfold pipeline.
  apply (keeps_catch failure_code failure_code_refl failure_code_trans);
    [| apply on_failure_exit].
  apply (keeps_bind failure_code failure_code_trans).
  - exact (resolveStage_kept w failure_code failure_code_refl failure_code_trans argv).
  - intros args. unfold afterResolve.
    assert (forall existing, keeps failure_code (installStage w existing argv)) as Hinst.
    { intros existing.
      exact (installStage_kept w failure_code failure_code_refl failure_code_trans
               (fun ev s => failure_code_other (with_call ev) s eq_refl)
               (fun l s => failure_code_other (with_err l) s eq_refl)
               (fun e s => failure_code_other (with_env e) s eq_refl)
               (fun d s => failure_code_other (with_exit_hook d) s eq_refl)
               existing argv). }
    pose proof (execCommand_exit fuel). other_writes.
Qed.

End ExitCode.

(** X18. The run never reports success by itself: the exit code it leaves is
    the one it found, or a number other than zero. *)
Theorem exit_code_is_a_failure_code w fuel argv s :
  let s' := snd (npx w fuel argv s) in
  proc_exitCode s' = proc_exitCode s
  \/ exists c, proc_exitCode s' = Some c /\ c <> 0.
Proof.
  cbv zeta. change (failure_code s (snd (npx w fuel argv s))).
  revert s. change (keeps failure_code (npx w fuel argv)).
  pose proof failure_code_refl. pose proof failure_code_trans.
  pose proof (pipeline_exit w fuel).
  unfold npx, localBinPath, prepend_PATH, console_log, console_error,
    set_process_exitCode.
  chain ltac:(apply keeps_modify; intros;
              first [ left; reflexivity | apply failure_code_set; discriminate ]).
Qed.

(** ** The argument vector *)

Lemma handed_over_refl opts s : handed_over opts s s.
Proof. now left. Qed.

Lemma handed_over_trans opts a b c :
  handed_over opts a b -> handed_over opts b c -> handed_over opts a c.
Proof.
  unfold handed_over.
  intros [Hab | (x & Hx & Hab)] [Hbc | (y & Hy & Hbc)].
  - left. congruence.
  - right. exists y. split; [exact Hy | now rewrite Hbc, Hab].
  - right. exists x. split; [exact Hx | congruence].
  - right. exists y. split; [exact Hy |]. now rewrite Hbc, Hab.
Qed.

Lemma handed_over_other opts (f : State -> State) s :
  proc_argv (f s) = proc_argv s -> handed_over opts s (f s).
Proof. intros H. now left. Qed.

Lemma execCommand_argv w fuel existing argv :
  keeps (handed_over argv) (execCommand w fuel existing argv).
Proof.
  pose proof (handed_over_refl argv) as Hrefl.
  pose proof (handed_over_trans argv) as Htrans.
  unfold execCommand.
  apply (keeps_bind _ Htrans).
  - exact (findNodeScript_kept w _ Hrefl Htrans
             (fun ev s => handed_over_other argv (with_call ev) s eq_refl)
             fuel existing argv).
  - intros script s. unfold bind at 1, gets at 1.
    destruct (takes_over w script argv s) eqn:Htake.
    + assert (truthy script = true) as Hscript.
      { unfold takes_over in Htake. now destruct (truthy script). }
      revert s Htake. intros s _. revert s.
      change (keeps (handed_over argv)
                (when (negb (noYargs argv)) (log_call EvYargsReset) ;;;
                 modify (fun s =>
                   with_argv ([nth 0 (proc_argv s) VUndef; script]
                              ++ map VStr (cmdOpts argv)) s) ;;;
                 args <- gets proc_argv ;;
                 log_call (EvRunMain args) ;;;
                 settle (w_runMain w args))).
      unfold log_call.
      chain ltac:(apply keeps_modify; intros;
                  first [ left; reflexivity
                        | right; exists script; split; [exact Hscript | reflexivity] ]).
    + revert s Htake. intros s _. revert s.
      change (keeps (handed_over argv)
                (catch (log_call (EvRunCommand script) ;;;
                        e <- gets env ;;
                        settle (w_runCommand w script argv e))
                   (fun err =>
                      if isOperational err && exitCode_truthy err
                      then set_process_exitCode (default 0 (exitCode err))
                      else throw err))).
      unfold log_call, set_process_exitCode.
      chain ltac:(apply keeps_modify; intros; left; reflexivity).
Qed.

(** X19. The run rewrites the argument vector of the process only to hand it
    to a script it classified as loadable: afterwards the vector is the one
    before, or the same interpreter, that script, and the options of the
    command. *)
Theorem argv_only_handed_to_a_script w fuel argv s :
  let s' := snd (npx w fuel argv s) in
  proc_argv s' = proc_argv s
  \/ exists script,
       truthy script = true
       /\ proc_argv s'
          = [nth 0 (proc_argv s) VUndef; script] ++ map VStr (cmdOpts argv).
Proof.
  cbv zeta. change (handed_over argv s (snd (npx w fuel argv s))).
  revert s. change (keeps (handed_over argv) (npx w fuel argv)).
  pose proof (handed_over_refl argv) as Hrefl.
  pose proof (handed_over_trans argv) as Htrans.
  assert (forall existing, keeps (handed_over argv) (installStage w existing argv))
    as Hinst.
  { intros existing.
    exact (installStage_kept w _ Hrefl Htrans
             (fun ev s => handed_over_other argv (with_call ev) s eq_refl)
             (fun l s => handed_over_other argv (with_err l) s eq_refl)
             (fun e s => handed_over_other argv (with_env e) s eq_refl)
             (fun d s => handed_over_other argv (with_exit_hook d) s eq_refl)
             existing argv). }
  pose proof (resolveStage_kept w _ Hrefl Htrans argv) as Hres.
  pose proof (execCommand_argv w fuel) as Hexec.
  unfold npx, pipeline, afterResolve, on_failure, localBinPath, prepend_PATH,
    console_log, console_error, set_process_exitCode.
  chain ltac:(apply keeps_modify; intros; left; reflexivity).
Qed.

(** ** More worked runs *)

Lemma classifier_passes_io_errors_witness :
  findNodeScript Cases.plain 1 (VStr "/srv/missing") (request "missing") start
  = (Rejected (fs_error "ENOENT" "no such file or directory, stat" "/srv/missing"),
     with_call (EvFindNodeScript (VStr "/srv/missing")) start)
  /\ findNodeScript Cases.plain 1 (VStr "/srv/tool") (request "tool") start
     = (Rejected read_error, with_call (EvFindNodeScript (VStr "/srv/tool")) start)
  /\ findNodeScript (Cases.refusing "/srv/tool" Cases.plain) 1 (VStr "/srv/tool")
       (request "tool") start
     = (Rejected (Cases.permission_denied "/srv/tool"),
        with_call (EvFindNodeScript (VStr "/srv/tool")) start).
Proof.
  split; [| split].
  - destruct (classifier_passes_io_errors Cases.plain (request "missing") 0
                "/srv/missing" start) as (Hmissing & _); [discriminate |].
    apply Hmissing. reflexivity.
  - destruct (classifier_passes_io_errors Cases.plain (request "tool") 0
                "/srv/tool" start) as (_ & Hdir & _); [discriminate |].
    apply Hdir; reflexivity.
  - destruct (classifier_passes_io_errors (Cases.refusing "/srv/tool" Cases.plain)
                (request "tool") 0 "/srv/tool" start) as (_ & _ & Hdenied);
      [discriminate |].
    apply (Hdenied Directory); reflexivity.
Defined.

Lemma classifier_sound_witness :
  exists q,
    VStr "/srv/script" = VStr q
    /\ ((isLocal (request "script") = true
         /\ p_extname (path quiet_world) q = ".js"
         /\ is_Some (fs_node quiet_world q))
        \/ (w_platform quiet_world = PosixLike
            /\ exists content, fs_node quiet_world q = Some (RegFile content)
                               /\ take 20 content = shebang_bytes)).
Proof.
  apply (classifier_sound quiet_world (request "script") 1 (VStr "/srv/script")
           start (VStr "/srv/script")
           (snd (findNodeScript quiet_world 1 (VStr "/srv/script")
                   (request "script") start))).
  - vm_compute. reflexivity.
  - reflexivity.
Defined.



Lemma missing_command_without_install_witness :
  pipeline quiet_world 3 (no_install_request "nope") started
  = (Resolved tt, with_exitCode 127 (with_err "not found: nope" started))
  /\ calls (snd (pipeline quiet_world 3 (no_install_request "nope") started))
     = calls started
  /\ proc_exitCode (snd (pipeline quiet_world 3 (no_install_request "nope") started))
     = Some 127.
Proof.
  apply (missing_command_without_install quiet_world 3 (no_install_request "nope")
           "nope" (not_found "nope") started);
    solve [ reflexivity | discriminate | vm_compute; reflexivity ].
Defined.

Lemma install_summary_is_optional_witness :
  exists s',
    ensurePackages Cases.plain (Some ["cowsay"]) (request "cowsay") start
    = (Resolved {| summary := []; prefix := "/home/u/.npm/_npx/4242";
                   bin := "/home/u/.npm/_npx/4242/bin" |}, s')
    /\ env s' !! "PATH" = Some "/home/u/.npm/_npx/4242/bin:/usr/bin"
    /\ exit_hooks s' = exit_hooks start ++ ["/home/u/.npm/_npx/4242"].
Proof.
  apply (install_summary_is_optional Cases.plain (Some ["cowsay"]) (request "cowsay")
           start "/home/u/.npm" "/usr/bin/npm" None).
  - vm_compute. reflexivity.
  - reflexivity.
  - reflexivity.
  - reflexivity.
  - left. reflexivity.
Defined.

Lemma failed_install_keeps_environment_witness :
  fst (ensurePackages
         (Cases.machine (Resolved "/home/u/proj") (Resolved []) (Resolved tt)
            (Rejected (child_failed 1 true)) None)
         (Some ["cowsay"]) (request "cowsay") start)
  = Rejected (set_message (install_failed_message (Some ["cowsay"]) 1)
                (child_failed 1 true))
  /\ env (snd (ensurePackages
                 (Cases.machine (Resolved "/home/u/proj") (Resolved []) (Resolved tt)
                    (Rejected (child_failed 1 true)) None)
                 (Some ["cowsay"]) (request "cowsay") start))
     = env start
  /\ env (snd (ensurePackages
                 (Cases.machine (Resolved "/home/u/proj") (Resolved []) (Resolved tt)
                    (Resolved (Some "5")) (Some (JNum 5)))
                 (Some ["cowsay"]) (request "cowsay") start)) !! "PATH"
     = Some (snd (install_bins Cases.plain "/home/u/.npm") +:+ ":"
             +:+ tmpl (env start !! "PATH")).
Proof.
  split; [vm_compute; reflexivity | split].
  - destruct (failed_install_keeps_environment
                (Cases.machine (Resolved "/home/u/proj") (Resolved []) (Resolved tt)
                   (Rejected (child_failed 1 true)) None)
                (Some ["cowsay"]) (request "cowsay") start
                (set_message (install_failed_message (Some ["cowsay"]) 1)
                   (child_failed 1 true))
                (snd (ensurePackages
                        (Cases.machine (Resolved "/home/u/proj") (Resolved [])
                           (Resolved tt) (Rejected (child_failed 1 true)) None)
                        (Some ["cowsay"]) (request "cowsay") start)))
      as [Hsame | (cachedir & npmPath & text & j & _ & _ & Hspawn & _)].
    + vm_compute. reflexivity.
    + exact Hsame.
    + discriminate Hspawn.
  - destruct (failed_install_keeps_environment
                (Cases.machine (Resolved "/home/u/proj") (Resolved []) (Resolved tt)
                   (Resolved (Some "5")) (Some (JNum 5)))
                (Some ["cowsay"]) (request "cowsay") start
                (type_error "Cannot create property 'prefix' on a primitive value")
                (snd (ensurePackages
                        (Cases.machine (Resolved "/home/u/proj") (Resolved [])
                           (Resolved tt) (Resolved (Some "5")) (Some (JNum 5)))
                        (Some ["cowsay"]) (request "cowsay") start)))
      as [Hsame | (cachedir & npmPath & text & j & Hcache & _ & _ & _ & _ & Hpath)].
    + vm_compute. reflexivity.
    + apply (f_equal (fun e => e !! "PATH")) in Hsame. vm_compute in Hsame.
      discriminate Hsame.
    + vm_compute in Hcache. injection Hcache as <-. exact Hpath.
Defined.

Lemma locator_returns_a_listed_entry_witness :
  snd (pick_bin Cases.plain "Foo" "/home/u/.npm/_npx/4242/bin" ["bar"; "Foo.cmd"] start)
  = start
  /\ ["bar"; "Foo.cmd"] <> []
  /\ (exists name,
        In name ["bar"; "Foo.cmd"]
        /\ VStr "/home/u/.npm/_npx/4242/bin/bar"
           = VStr (p_resolve (path Cases.plain) ["/home/u/.npm/_npx/4242/bin"; name]))
  /\ (w_platform Cases.plain = PosixLike ->
      Path.isAbsolute (w_cwd Cases.plain) = true ->
      exists p, VStr "/home/u/.npm/_npx/4242/bin/bar" = VStr p
                /\ Path.isAbsolute p = true).
Proof.
  apply (locator_returns_a_listed_entry Cases.plain "Foo"
           "/home/u/.npm/_npx/4242/bin" ["bar"; "Foo.cmd"] start
           (VStr "/home/u/.npm/_npx/4242/bin/bar")).
  vm_compute. reflexivity.
Defined.

Lemma locator_failures_witness :
  commandLocator
    (Cases.machine (Resolved "/home/u/proj") (Rejected Cases.no_such_directory)
       (Resolved tt) (Resolved None) None)
    "cowsay"
    {| summary := []; prefix := "/home/u/.npm/_npx/4242";
       bin := "/home/u/.npm/_npx/4242/bin" |} start
  = (Rejected (new_Error "command not found: cowsay"),
     with_call (EvReaddir "/home/u/.npm/_npx/4242/bin") start)
  /\ commandLocator
       (Cases.machine (Resolved "/home/u/proj") (Rejected access_denied)
          (Resolved tt) (Resolved None) None)
       "cowsay"
       {| summary := []; prefix := "/home/u/.npm/_npx/4242";
          bin := "/home/u/.npm/_npx/4242/bin" |} start
     = (Rejected access_denied,
        with_call (EvReaddir "/home/u/.npm/_npx/4242/bin") start).
Proof.
  split.
  - destruct (locator_failures
                (Cases.machine (Resolved "/home/u/proj")
                   (Rejected Cases.no_such_directory) (Resolved tt) (Resolved None) None)
                "cowsay"
                {| summary := []; prefix := "/home/u/.npm/_npx/4242";
                   bin := "/home/u/.npm/_npx/4242/bin" |} start
                Cases.no_such_directory eq_refl) as [Hmissing _].
    apply Hmissing. reflexivity.
  - destruct (locator_failures
                (Cases.machine (Resolved "/home/u/proj")
                   (Rejected access_denied) (Resolved tt) (Resolved None) None)
                "cowsay"
                {| summary := []; prefix := "/home/u/.npm/_npx/4242";
                   bin := "/home/u/.npm/_npx/4242/bin" |} start
                access_denied eq_refl) as [_ Hother].
    apply Hother. discriminate.
Defined.

Lemma local_directory_always_leads_witness :
  str_truthy (Some "/home/u/proj/node_modules/.bin") = true
  /\ npx quiet_world 3 (request "ls") start
     = pipeline quiet_world 3 (request "ls")
         (with_env (<["PATH" := "/home/u/proj/node_modules/.bin:/usr/bin"]> (env start))
            start).
Proof.
  apply (local_directory_always_leads quiet_world 3 (request "ls") "/home/u/proj" start).
  - reflexivity.
  - reflexivity.
  - right. split; [reflexivity | eexists; reflexivity].
  - reflexivity.
Defined.

Lemma call_string_runs_in_captured_environment_witness :
  env (snd (pipeline quiet_world 3 (call_request "echo hi") started))
  = {[ "PATH" := "/npm/bin:/usr/bin" ]}
  /\ entries (calls (snd (pipeline quiet_world 3 (call_request "echo hi") started)))
     = entries (calls started).
Proof.
  apply (call_string_runs_in_captured_environment quiet_world 3
           (call_request "echo hi") started VUndef {[ "PATH" := "/npm/bin:/usr/bin" ]}).
  - reflexivity.
  - reflexivity.
  - vm_compute. reflexivity.
Defined.

Lemma run_rejects_only_without_prefix_witness :
  npx (Cases.machine (Rejected Cases.outside_project) (Resolved []) (Resolved tt)
         (Resolved None) None) 3 (request "ls") start
  = (Rejected Cases.outside_project, start)
  /\ w_getPrefix
       (Cases.machine (Rejected Cases.outside_project) (Resolved []) (Resolved tt)
          (Resolved None) None)
       "/home/u/proj"
     = Rejected Cases.outside_project.
Proof.
  split; [vm_compute; reflexivity |].
  destruct (run_rejects_only_without_prefix
              (Cases.machine (Rejected Cases.outside_project) (Resolved [])
                 (Resolved tt) (Resolved None) None) 3 (request "ls")) as [_ Hnpx].
  apply (Hnpx start Cases.outside_project start). vm_compute. reflexivity.
Defined.

Lemma nothing_runs_without_a_command_witness :
  npx quiet_world 3 (call_request "") start
  = (Resolved tt,
     with_exitCode 1
       (with_err "Usage: npx <command>" (with_err must_supply_command start))).
Proof.
  destruct (nothing_runs_without_a_command quiet_world 3 (call_request "") start)
    as [Hguard _].
  apply Hguard.
  - reflexivity.
  - reflexivity.
  - left. reflexivity.
Defined.

Lemma install_errors_pass_through_witness :
  installPackages locked_world (Some ["cowsay"]) "/home/u/.npm/_npx/4242"
    (request "cowsay") start
  = (Rejected access_denied, start).
Proof.
  destruct (install_errors_pass_through locked_world (Some ["cowsay"])
              "/home/u/.npm/_npx/4242" (request "cowsay") start) as [Hwhich _].
  apply Hwhich. reflexivity.
Defined.
